(** * The waveform example: a shallow embedding of [main.c]

    The callbacks of [main.c] ([packet_rx], [packet_tx], [state_test]) are
    modelled as functions on the context structure [junk_context].  Calls
    into the waveform library and writes to [stderr] are recorded, in
    program order, as a list of [event]s.  Reading or writing an array out
    of its bounds is undefined behaviour in C; the model makes it an
    explicit [Undefined] outcome that names the offending access. *)

From Stdlib Require Import ZArith QArith Qabs List String Ascii Bool Lia.
From Stdlib Require Import Strings.Byte.
From Stdlib Require Import Floats.SpecFloat DecimalString DecimalZ.
From Equations Require Import Equations.
Import ListNotations.

Local Open Scope Z_scope.

(** ** Machine integers *)

(** Conversion to an unsigned type of [w] bits. *)
Definition to_unsigned (w x : Z) : Z := x mod 2 ^ w.

(** Conversion to a signed two's complement type of [w] bits. *)
Definition to_signed (w x : Z) : Z := (x + 2 ^ (w - 1)) mod 2 ^ w - 2 ^ (w - 1).

Definition to_uint8 : Z -> Z := to_unsigned 8.
Definition to_uint64 : Z -> Z := to_unsigned 64.
Definition to_int16 : Z -> Z := to_signed 16.
Definition to_int64 : Z -> Z := to_signed 64.

(** ** Single precision floats

    A C [float] is an IEEE 754 binary32 number: 24 bits of precision,
    exponents below 128.  Values are [spec_float]s and the operations are
    the correctly rounded ones of [SpecFloat]. *)

Module F32.

Definition prec : Z := 24.
Definition emax : Z := 128.

Definition t : Type := spec_float.

Definition zero : t := S754_zero false.

(** A decimal constant of the source, rounded to the nearest [float]. *)
Definition of_Q (q : Q) : t :=
  match Qnum q with
  | Z0 => zero
  | Zpos n => SFdiv prec emax (S754_finite false n 0) (S754_finite false (Qden q) 0)
  | Zneg n => SFdiv prec emax (S754_finite true n 0) (S754_finite false (Qden q) 0)
  end.

(** The conversion [(float) n] of an integer. *)
Definition of_int (n : Z) : t := binary_normalize prec emax n 0 false.

Definition mul (x y : t) : t := SFmul prec emax x y.

(** The constant [0.5F]. *)
Definition half : t := Eval vm_compute in of_Q 0.5%Q.

(** The exact rational value of a finite float. *)
Definition to_Q (x : t) : Q :=
  match x with
  | S754_finite s m e =>
      let v := (inject_Z (Zpos m) * Qpower 2 e)%Q in
      if s then Qopp v else v
  | _ => 0%Q
  end.

(** Half a unit in the last place of a finite float. *)
Definition half_ulp (x : t) : Q :=
  match x with
  | S754_finite _ _ e => Qpower 2 (e - 1)
  | _ => 0%Q
  end.

End F32.

(** ** The context structure

    [struct junk_context]: the two phases are [uint8_t], [snr] is
    [int16_t] and [byte_data_counter] is [uint64_t]. *)

Record junk_context : Type := mk_context {
  rx_phase : Z;
  tx_phase : Z;
  tx : bool;
  snr : Z;
  byte_data_counter : Z
}.

Definition set_rx_phase (v : Z) (ctx : junk_context) : junk_context :=
  mk_context v (tx_phase ctx) (tx ctx) (snr ctx) (byte_data_counter ctx).

Definition set_tx_phase (v : Z) (ctx : junk_context) : junk_context :=
  mk_context (rx_phase ctx) v (tx ctx) (snr ctx) (byte_data_counter ctx).

Definition set_tx (v : bool) (ctx : junk_context) : junk_context :=
  mk_context (rx_phase ctx) (tx_phase ctx) v (snr ctx) (byte_data_counter ctx).

Definition set_snr (v : Z) (ctx : junk_context) : junk_context :=
  mk_context (rx_phase ctx) (tx_phase ctx) (tx ctx) v (byte_data_counter ctx).

Definition set_byte_data_counter (v : Z) (ctx : junk_context) : junk_context :=
  mk_context (rx_phase ctx) (tx_phase ctx) (tx ctx) (snr ctx) v.

(** [struct junk_context ctx = {0};] in [main]. *)
Definition initial_context : junk_context := mk_context 0 0 false 0 0.

(** ** The sine table *)

(** The decimal constants of the initialiser of [sin_table], as written. *)
Definition sin_table_constants : list Q :=
  [ 0.0;
    0.25881904510252074;
    0.49999999999999994;
    0.7071067811865475;
    0.8660254037844386;
    0.9659258262890682;
    1.0;
    0.9659258262890683;
    0.8660254037844388;
    0.7071067811865476;
    0.5000000000000003;
    0.258819045102521;
    1.2246467991473532e-16;
    -0.25881904510252035;
    -0.4999999999999998;
    -0.7071067811865471;
    -0.8660254037844384;
    -0.9659258262890681;
    -1.0;
    -0.9659258262890684;
    -0.866025403784439;
    -0.7071067811865477;
    -0.5000000000000004;
    -0.2588190451025215 ]%Q.

(** [sin_table]: each constant rounded to [float], as the suffix [F] asks. *)
Definition sin_table : list F32.t :=
  Eval vm_compute in map F32.of_Q sin_table_constants.

(** ** Outcomes *)

(** The accesses that leave the bounds of an array. *)
Inductive fault : Type :=
| OOB_write (index size : Z)   (* a store to the sample buffer of [size] floats *)
| OOB_read (index : Z).        (* a load from [sin_table] *)

Inductive result (A : Type) : Type :=
| Ok (a : A)
| Undefined (f : fault).

Arguments Ok {A} a.
Arguments Undefined {A} f.

Definition bind {A B : Type} (r : result A) (k : A -> result B) : result B :=
  match r with
  | Ok a => k a
  | Undefined f => Undefined f
  end.

Notation "x <- r ;; k" := (bind r (fun x => k))
  (at level 61, r at next level, right associativity).

(** ** Effects: the calls into the library *)

(** The stream selector of [waveform_send_data_packet]. *)
Inductive waveform_packet_type : Type := SPEAKER_DATA | TRANSMITTER_DATA.

Inductive event : Type :=
| waveform_send_data_packet (samples : list F32.t) (num_samples : Z)
                            (type : waveform_packet_type)
| waveform_meter_set_float_value (name : string) (value : F32.t)
| waveform_meters_send
| waveform_send_byte_data_packet (data : list byte) (size : Z)
| waveform_send_api_command_cb (command : string)
| fprintf_stderr (text : string).

(** ** Arrays *)

(** [sin_table[index]]. *)
Definition load_sin_table (index : Z) : result F32.t :=
  if index <? 0 then Undefined (OOB_read index)
  else match nth_error sin_table (Z.to_nat index) with
       | Some v => Ok v
       | None => Undefined (OOB_read index)
       end.

Fixpoint update {A : Type} (l : list A) (n : nat) (v : A) : list A :=
  match l, n with
  | [], _ => []
  | _ :: l', O => v :: l'
  | x :: l', S n' => x :: update l' n' v
  end.

(** [samples[index] = v] on a buffer that was declared with
    [length samples] elements. *)
Definition store (samples : list F32.t) (index : Z) (v : F32.t)
  : result (list F32.t) :=
  if (0 <=? index) && (index <? Z.of_nat (List.length samples))
  then Ok (update samples (Z.to_nat index) v)
  else Undefined (OOB_write index (Z.of_nat (List.length samples))).

(** ** The sample loop

    [packet_rx] and [packet_tx] run the same loop, one on [rx_phase] and
    one on [tx_phase]:
<<
    for (int i = 0; i < get_packet_len(packet); i += 2) {
        samples[i] = samples[i + 1] = sin_table[phase] * 0.5F;
        phase = (phase + 1) % 24;
    }
>>
    The loop state is the buffer and the phase. *)

(** [(phase + 1) % 24], stored back into the [uint8_t] field. *)
Definition next_phase (phase : Z) : Z := to_uint8 (Z.rem (phase + 1) 24).

(** The body of the loop at index [i].  Of the chained assignment the
    inner one, to [samples[i + 1]], is written first; its value goes to
    [samples[i]]. *)
Definition fill_pair (i : Z) (st : list F32.t * Z) : result (list F32.t * Z) :=
  let '(samples, phase) := st in
  s <- load_sin_table phase ;;
  let v := F32.mul s F32.half in
  samples <- store samples (i + 1) v ;;
  samples <- store samples i v ;;
  Ok (samples, next_phase phase).

Equations? fill_samples (len i : Z) (st : list F32.t * Z)
  : result (list F32.t * Z) by wf (Z.to_nat (len - i)) lt :=
  fill_samples len i st with Z_lt_dec i len => {
    | left _ with fill_pair i st => {
        | Ok st' := fill_samples len (i + 2) st';
        | Undefined f := Undefined f };
    | right _ := Ok st }.
Proof. lia. Qed.

(** ** The callbacks *)

Definition newline : string := String "010"%char EmptyString.

(** A signed integer in decimal, as [%ld] prints it. *)
Definition decimal (n : Z) : string := NilZero.string_of_int (Z.to_int n).

(** The text that [snprintf] makes of ["Callback Counter: %ld\n"].  The
    conversion [%ld] reads its argument as a [long], 64 bits wide here. *)
Definition callback_counter_text (counter : Z) : string :=
  ("Callback Counter: " ++ decimal (to_int64 counter) ++ newline)%string.

(** [packet_rx].  [packet_len] is what [get_packet_len (packet)] returns,
    the same at each of its calls; the callback reads nothing else of the
    packet. *)
Definition packet_rx (ctx : junk_context) (packet_len : Z)
  : result (junk_context * list event) :=
  if tx ctx then Ok (ctx, [])
  else
    (* float null_samples[get_packet_len(packet)]; memset(null_samples, 0, ...) *)
    let null_samples := repeat F32.zero (Z.to_nat packet_len) in
    st <- fill_samples packet_len 0 (null_samples, rx_phase ctx) ;;
    let ctx := set_rx_phase (snd st) ctx in
    let sent :=
      [ waveform_send_data_packet (fst st) packet_len SPEAKER_DATA;
        waveform_meter_set_float_value "junk-snr" (F32.of_int (snr ctx));
        waveform_meters_send ] in
    (* ctx->snr = ++ctx->snr > 100 ? -100 : ctx->snr; *)
    let incremented := to_int16 (snr ctx + 1) in
    let ctx := set_snr (if incremented >? 100 then -100 else incremented) ctx in
    (* if (++ctx->byte_data_counter % 100 == 0) *)
    let ctx := set_byte_data_counter (to_uint64 (byte_data_counter ctx + 1)) ctx in
    if byte_data_counter ctx mod 100 =? 0 then
      let text := callback_counter_text (byte_data_counter ctx) in
      let len := Z.of_nat (String.length text) in
      (* uint8_t data_message[len + 1]: the text and its terminating zero *)
      let data_message := (list_byte_of_string text ++ [x00])%list in
      Ok (ctx, (sent ++ [waveform_send_byte_data_packet data_message (len + 1)])%list)
    else Ok (ctx, sent).

(** [packet_tx]. *)
Definition packet_tx (ctx : junk_context) (packet_len : Z)
  : result (junk_context * list event) :=
  if negb (tx ctx) then Ok (ctx, [])
  else
    let xmit_samples := repeat F32.zero (Z.to_nat packet_len) in
    st <- fill_samples packet_len 0 (xmit_samples, tx_phase ctx) ;;
    let ctx := set_tx_phase (snd st) ctx in
    Ok (ctx, [waveform_send_data_packet (fst st) packet_len TRANSMITTER_DATA]).

(** Modelled from the spec: [enum waveform_state] is declared in the
    library header [waveform_api.h], which is not part of this repository.
    The four enumerators are the ones [state_test] names; [other_state]
    stands for any value of the underlying integer type that is none of
    them, which is what reaches the [default] label. *)
Inductive waveform_state : Type :=
| ACTIVE
| INACTIVE
| PTT_REQUESTED
| UNKEY_REQUESTED
| other_state (value : Z).

(** [state_test]. *)
Definition state_test (ctx : junk_context) (state : waveform_state)
  : junk_context * list event :=
  match state with
  | ACTIVE =>
      (ctx, [ fprintf_stderr ("wf is active" ++ newline);
              waveform_send_api_command_cb "filt 0 100 3000" ])
  | INACTIVE => (ctx, [fprintf_stderr ("wf is inactive" ++ newline)])
  | PTT_REQUESTED =>
      (set_tx true ctx, [fprintf_stderr ("ptt requested" ++ newline)])
  | UNKEY_REQUESTED =>
      (set_tx false ctx, [fprintf_stderr ("unkey requested" ++ newline)])
  | other_state _ => (ctx, [fprintf_stderr "unknown state received"])
  end.

(** ** Sequences of callbacks *)

(** What the library delivers: a receiver packet, a transmitter packet
    (each with its sample count) or a state change. *)
Inductive callback : Type :=
| rx_data (packet_len : Z)
| tx_data (packet_len : Z)
| state_change (state : waveform_state).

Definition dispatch (ctx : junk_context) (cb : callback)
  : result (junk_context * list event) :=
  match cb with
  | rx_data len => packet_rx ctx len
  | tx_data len => packet_tx ctx len
  | state_change st => Ok (state_test ctx st)
  end.

(** Runs the callbacks one after the other; the events add up in order. *)
Fixpoint run (cbs : list callback) (ctx : junk_context)
  : result (junk_context * list event) :=
  match cbs with
  | [] => Ok (ctx, [])
  | cb :: rest =>
      r <- dispatch ctx cb ;;
      r' <- run rest (fst r) ;;
      Ok (fst r', (snd r ++ snd r')%list)
  end.

(** ** Vocabulary of the properties *)

(** The value one iteration of the sample loop stores at phase [phase]:
    [sin_table[phase] * 0.5F]. *)
Definition half_scale (phase : Z) : F32.t :=
  F32.mul (nth (Z.to_nat phase) sin_table F32.zero) F32.half.

(** The table at half scale. *)
Definition half_table : list F32.t :=
  map (fun s => F32.mul s F32.half) sin_table.

(** What the sample loop writes in [pairs] iterations from [phase] on. *)
Fixpoint tone (phase : Z) (pairs : nat) : list F32.t :=
  match pairs with
  | O => []
  | S n => half_scale phase :: half_scale phase :: tone (next_phase phase) n
  end.

(** The two channels of the [k]-th stereo pair of a buffer. *)
Definition left_sample (samples : list F32.t) (k : nat) : F32.t :=
  nth (2 * k) samples F32.zero.

Definition right_sample (samples : list F32.t) (k : nat) : F32.t :=
  nth (2 * k + 1) samples F32.zero.

(** The 24 consecutive stereo pairs that start at pair [k] (one sample each,
    the two channels being equal). *)
Definition window (samples : list F32.t) (k : nat) : list F32.t :=
  map (fun j => left_sample samples (k + j)) (seq 0 24).

(** [l] rotated left by [r] places. *)
Definition rotate {A : Type} (r : nat) (l : list A) : list A :=
  (skipn r l ++ firstn r l)%list.

(** Both phases index the table. *)
Definition phase_invariant (ctx : junk_context) : Prop :=
  0 <= rx_phase ctx < 24 /\ 0 <= tx_phase ctx < 24.

(** The assignment [ctx->snr = ++ctx->snr > 100 ? -100 : ctx->snr] as a
    function of the old value. *)
Definition next_snr (s : Z) : Z :=
  let incremented := to_int16 (s + 1) in
  if incremented >? 100 then -100 else incremented.

(** The bytes that [packet_rx] hands to [waveform_send_byte_data_packet]
    for a counter value: the formatted text and the terminating zero. *)
Definition heartbeat_message (counter : Z) : list byte :=
  (list_byte_of_string (callback_counter_text counter) ++ [x00])%list.

(** What [packet_rx] sends after the meters when the counter, already
    incremented, is [counter]. *)
Definition heartbeat (counter : Z) : list event :=
  if counter mod 100 =? 0
  then [ waveform_send_byte_data_packet (heartbeat_message counter)
           (Z.of_nat (String.length (callback_counter_text counter)) + 1) ]
  else [].

(** The samples sent to the speaker stream, block after block. *)
Fixpoint speaker_samples (evs : list event) : list F32.t :=
  match evs with
  | [] => []
  | waveform_send_data_packet samples _ SPEAKER_DATA :: rest =>
      (samples ++ speaker_samples rest)%list
  | _ :: rest => speaker_samples rest
  end.

(** The byte data packets among the events. *)
Fixpoint heartbeats (evs : list event) : list event :=
  match evs with
  | [] => []
  | waveform_send_byte_data_packet data size :: rest =>
      waveform_send_byte_data_packet data size :: heartbeats rest
  | _ :: rest => heartbeats rest
  end.

(** The sample counts the model covers: not negative, and small enough
    for the loop counter [int i] to pass them by one without overflow. *)
Definition sample_count (len : Z) : Prop := 0 <= len < 2 ^ 31 - 1.

(** A sample count that fills whole stereo pairs. *)
Definition even_length (len : Z) : Prop := sample_count len /\ Z.even len = true.

(** The stereo pairs of a sequence of packets. *)
Definition total_pairs (lens : list Z) : nat :=
  fold_right (fun len acc => (Z.to_nat (len / 2) + acc)%nat) 0%nat lens.

(** The closed form of the [snr] field after [k] receiver packets from
    zero: it climbs to 100, then repeats the 201 values from -100 to 100. *)
Definition sawtooth (k : nat) : Z :=
  if (k <=? 100)%nat then Z.of_nat k
  else (Z.of_nat k - 101) mod 201 - 100.

(** ** The meter table *)

(** Modelled from the spec: [struct waveform_meter_entry] and the units of
    [enum waveform_units] are declared in the library header, which is not
    part of this repository.  The fields are the four the initialiser of
    [meters] names; [DB] is the one unit it uses. *)
Inductive waveform_units : Type := DB.

Record waveform_meter_entry : Type := mk_meter {
  meter_name : string;
  meter_min : F32.t;
  meter_max : F32.t;
  meter_unit : waveform_units
}.

(** [meters]: what [main] registers with [waveform_register_meter_list]. *)
Definition meters : list waveform_meter_entry := Eval vm_compute in
  [ mk_meter "junk-snr" (F32.of_Q (-100.0)%Q) (F32.of_Q 100.0%Q) DB;
    mk_meter "junk-foff" (F32.of_Q 0.0%Q) (F32.of_Q 100000.0%Q) DB;
    mk_meter "junk-clock-offset" (F32.of_Q 0.0%Q) (F32.of_Q 100000.0%Q) DB ].

(** ** The callbacks that only log

    [test_command], [echo_command] and [data_rx] write to [stderr] and use
    neither the waveform nor the context.  An array is a list of the
    elements it holds; a callback that reads on past them has no defined
    output, which is [None]. *)

(** [fprintf(stderr, "ARG #%u: %s\n", i, argv[i])]. *)
Definition print_arg (argv : list string) (i : Z) : option event :=
  match nth_error argv (Z.to_nat i) with
  | Some arg =>
      Some (fprintf_stderr ("ARG #" ++ decimal i ++ ": " ++ arg ++ newline))
  | None => None
  end.

(** [for (int i = 0; i < argc; ++i) fprintf(...)], the loop of both
    [test_command] and [echo_command], from index [i] on; [out] is what was
    written before.  [argc] is an [unsigned int]; the model covers the
    counts that [int i] reaches without overflow. *)
Equations? print_args (argc : Z) (argv : list string) (i : Z) (out : list event)
  : option (list event) by wf (Z.to_nat (argc - i)) lt :=
  print_args argc argv i out with Z_lt_dec i argc => {
    | left _ with print_arg argv i => {
        | Some line := print_args argc argv (i + 1) (out ++ [line]);
        | None := None };
    | right _ := Some out }.
Proof. lia. Qed.

(** [test_command]: the returned status and what was written. *)
Definition test_command (argc : Z) (argv : list string) : option (Z * list event) :=
  option_map (fun out => (0, out)) (print_args argc argv 0 []).

(** [echo_command]. *)
Definition echo_command (argc : Z) (argv : list string) : option (Z * list event) :=
  match nth_error argv 0 with
  | Some status =>
      option_map (fun out => (0, out))
        (print_args argc argv 0
           [ fprintf_stderr ("Got a status for " ++ status ++ newline);
             fprintf_stderr ("Number of args is " ++ decimal argc ++ newline) ])
  | None => None
  end.

(** What the conversion [%s] prints of a byte array: the bytes before the
    first zero byte. *)
Fixpoint c_string (bytes : list byte) : option (list byte) :=
  match bytes with
  | [] => None
  | b :: rest =>
      if Byte.eqb b x00 then Some []
      else option_map (cons b) (c_string rest)
  end.

(** [data_rx].  [byte_data_length] and [byte_data] are what
    [get_packet_byte_data_length (packet)] and [get_packet_byte_data (packet)]
    return; the length is one that [%d] prints as it is. *)
Definition data_rx (byte_data_length : Z) (byte_data : list byte)
  : option (list event) :=
  match c_string byte_data with
  | Some content =>
      Some [ fprintf_stderr ("Got packet..." ++ newline);
             fprintf_stderr ("  Length: " ++ decimal byte_data_length ++ newline);
             fprintf_stderr ("  Content: " ++ string_of_list_byte content ++ newline) ]
  | None => None
  end.

(** ** Vocabulary of the properties of whole runs *)

(** The samples sent to the transmitter stream, block after block. *)
Fixpoint transmitter_samples (evs : list event) : list F32.t :=
  match evs with
  | [] => []
  | waveform_send_data_packet samples _ TRANSMITTER_DATA :: rest =>
      (samples ++ transmitter_samples rest)%list
  | _ :: rest => transmitter_samples rest
  end.

(** The data packets among the events. *)
Fixpoint data_packets (evs : list event) : list event :=
  match evs with
  | [] => []
  | waveform_send_data_packet samples n type :: rest =>
      waveform_send_data_packet samples n type :: data_packets rest
  | _ :: rest => data_packets rest
  end.

(** The meter updates among the events: name and value. *)
Fixpoint meter_values (evs : list event) : list (string * F32.t) :=
  match evs with
  | [] => []
  | waveform_meter_set_float_value name value :: rest =>
      (name, value) :: meter_values rest
  | _ :: rest => meter_values rest
  end.

(** The commands sent to the radio. *)
Fixpoint api_commands (evs : list event) : list string :=
  match evs with
  | [] => []
  | waveform_send_api_command_cb command :: rest => command :: api_commands rest
  | _ :: rest => api_commands rest
  end.

(** The transmit flag that the state changes among [cbs] leave, from
    [flag]. *)
Fixpoint keyed (cbs : list callback) (flag : bool) : bool :=
  match cbs with
  | [] => flag
  | state_change PTT_REQUESTED :: rest => keyed rest true
  | state_change UNKEY_REQUESTED :: rest => keyed rest false
  | _ :: rest => keyed rest flag
  end.

(** The sample counts of the receiver packets among [cbs] that arrive while
    the flag, [flag] at first, is clear. *)
Fixpoint received (cbs : list callback) (flag : bool) : list Z :=
  match cbs with
  | [] => []
  | rx_data len :: rest =>
      if flag then received rest flag else len :: received rest flag
  | cb :: rest => received rest (keyed [cb] flag)
  end.

(** The sample counts of the transmitter packets among [cbs] that arrive
    while the flag is set. *)
Fixpoint transmitted (cbs : list callback) (flag : bool) : list Z :=
  match cbs with
  | [] => []
  | tx_data len :: rest =>
      if flag then len :: transmitted rest flag else transmitted rest flag
  | cb :: rest => transmitted rest (keyed [cb] flag)
  end.

(** The packets of a callback carry whole stereo pairs. *)
Definition even_packet (cb : callback) : Prop :=
  match cb with
  | rx_data len | tx_data len => even_length len
  | state_change _ => True
  end.

(** The [snr] values the meter can show. *)
Definition snr_in_range (ctx : junk_context) : Prop := -100 <= snr ctx <= 100.

(** What a callback does to a context whose phases are in range, in closed
    form. *)
Definition effect (ctx : junk_context) (cb : callback) : junk_context * list event :=
  match cb with
  | rx_data len =>
      if tx ctx then (ctx, [])
      else
        (mk_context ((rx_phase ctx + len / 2) mod 24) (tx_phase ctx) false
           (next_snr (snr ctx)) (to_uint64 (byte_data_counter ctx + 1)),
         [ waveform_send_data_packet
             (tone (rx_phase ctx) (Z.to_nat (len / 2))) len SPEAKER_DATA;
           waveform_meter_set_float_value "junk-snr" (F32.of_int (snr ctx));
           waveform_meters_send ]
         ++ heartbeat (to_uint64 (byte_data_counter ctx + 1)))%list
  | tx_data len =>
      if tx ctx
      then (mk_context (rx_phase ctx) ((tx_phase ctx + len / 2) mod 24) true
              (snr ctx) (byte_data_counter ctx),
            [ waveform_send_data_packet
                (tone (tx_phase ctx) (Z.to_nat (len / 2))) len TRANSMITTER_DATA ])
      else (ctx, [])
  | state_change st => state_test ctx st
  end.

Fixpoint effects (cbs : list callback) (ctx : junk_context)
  : junk_context * list event :=
  match cbs with
  | [] => (ctx, [])
  | cb :: rest =>
      let r := effect ctx cb in
      let r' := effects rest (fst r) in
      (fst r', (snd r ++ snd r')%list)
  end.

(** A meter update that the radio accepts: the name is that of an entry
    of [meters] and the value lies between its bounds. *)
Definition registered_meter (name : string) (value : F32.t) : Prop :=
  exists m,
    In m meters /\ meter_name m = name /\
    SFleb (meter_min m) value = true /\ SFleb value (meter_max m) = true.

(** The lines the argument loop writes for the strings [args], numbered
    from [i] on. *)
Fixpoint arg_lines (i : Z) (args : list string) : list event :=
  match args with
  | [] => []
  | arg :: rest =>
      fprintf_stderr ("ARG #" ++ decimal i ++ ": " ++ arg ++ newline)
      :: arg_lines (i + 1) rest
  end.

(** The number of [ACTIVE] state changes among the callbacks. *)
Fixpoint activations (cbs : list callback) : nat :=
  match cbs with
  | [] => 0
  | state_change ACTIVE :: rest => S (activations rest)
  | _ :: rest => activations rest
  end.

(** No zero byte among the bytes. *)
Definition nul_free (bytes : list byte) : Prop := Forall (fun b => b <> x00) bytes.



(** * Properties *)

(** ** The sample loop *)

Lemma fill_samples_step (len i : Z) (st : list F32.t * Z) :
  fill_samples len i st =
  if i <? len then st' <- fill_pair i st ;; fill_samples len (i + 2) st'
  else Ok st.
Proof.
  simp fill_samples.
  destruct (Z_lt_dec i len) as [Hlt | Hge]; simpl;
    destruct (Z.ltb_spec i len); try lia; [ | reflexivity ].
  destruct (fill_pair i st); reflexivity.
Qed.

Lemma sin_table_length : List.length sin_table = 24%nat.
Proof. reflexivity. Qed.

(** Every entry of the table is a [float] nearest to the constant it was
    rounded from: they differ by at most half a unit in its last place. *)
Lemma sin_table_accuracy :
  forallb (fun cf => Qle_bool (Qabs (F32.to_Q (snd cf) - fst cf)%Q)
                              (F32.half_ulp (snd cf)))
          (combine sin_table_constants sin_table) = true.
Proof. vm_compute. reflexivity. Qed.

Lemma load_sin_table_in_range (phase : Z) :
  0 <= phase < 24 ->
  load_sin_table phase = Ok (nth (Z.to_nat phase) sin_table F32.zero).
Proof.
  intros Hp. unfold load_sin_table.
  destruct (Z.ltb_spec phase 0); [lia | ].
  rewrite (nth_error_nth' sin_table F32.zero); [reflexivity | ].
  rewrite sin_table_length. lia.
Qed.

Lemma load_sin_table_out_of_range (phase : Z) :
  ~ 0 <= phase < 24 -> load_sin_table phase = Undefined (OOB_read phase).
Proof.
  intros Hp. unfold load_sin_table.
  destruct (Z.ltb_spec phase 0); [reflexivity | ].
  destruct (nth_error sin_table (Z.to_nat phase)) eqn:E; [ | reflexivity].
  assert (Z.to_nat phase < List.length sin_table)%nat
    by (apply nth_error_Some; congruence).
  rewrite sin_table_length in *. lia.
Qed.

Lemma next_phase_in_range (phase : Z) :
  0 <= phase < 24 -> next_phase phase = (phase + 1) mod 24.
Proof.
  intros Hp. unfold next_phase, to_uint8, to_unsigned.
  rewrite Z.rem_mod_nonneg by lia.
  apply Z.mod_small.
  pose proof (Z.mod_pos_bound (phase + 1) 24). lia.
Qed.

Lemma next_phase_bound (phase : Z) :
  0 <= phase < 24 -> 0 <= next_phase phase < 24.
Proof.
  intros Hp. rewrite next_phase_in_range by assumption.
  apply Z.mod_pos_bound. lia.
Qed.

Lemma update_app {A : Type} (l1 l2 : list A) (x v : A) :
  update (l1 ++ x :: l2) (List.length l1) v = (l1 ++ v :: l2)%list.
Proof. induction l1 as [ | y l1 IH]; simpl; [ | rewrite IH]; reflexivity. Qed.

Lemma store_in_bounds (l1 l2 : list F32.t) (x v : F32.t) (index : Z) :
  index = Z.of_nat (List.length l1) ->
  store (l1 ++ x :: l2) index v = Ok (l1 ++ v :: l2)%list.
Proof.
  intros ->. unfold store. rewrite length_app. simpl List.length.
  destruct (Z.leb_spec 0 (Z.of_nat (List.length l1))); [ | lia].
  destruct (Z.ltb_spec (Z.of_nat (List.length l1))
              (Z.of_nat (List.length l1 + S (List.length l2)))); [ | lia].
  simpl. rewrite Nat2Z.id, update_app. reflexivity.
Qed.

Lemma store_past_end (samples : list F32.t) (v : F32.t) (index : Z) :
  Z.of_nat (List.length samples) <= index ->
  store samples index v = Undefined (OOB_write index (Z.of_nat (List.length samples))).
Proof.
  intros H. unfold store.
  destruct (Z.ltb_spec index (Z.of_nat (List.length samples))); [lia | ].
  rewrite andb_false_r. reflexivity.
Qed.

(** One iteration with both elements inside the buffer. *)
Lemma fill_pair_in_bounds (done rest : list F32.t) (a b : F32.t) (i phase : Z) :
  i = Z.of_nat (List.length done) ->
  0 <= phase < 24 ->
  fill_pair i (done ++ a :: b :: rest, phase)%list =
  Ok ((done ++ half_scale phase :: half_scale phase :: rest)%list,
      next_phase phase).
Proof.
  intros Hi Hp. unfold fill_pair.
  rewrite load_sin_table_in_range by assumption. cbn [bind].
  change (done ++ a :: b :: rest)%list with (done ++ [a] ++ b :: rest)%list.
  rewrite app_assoc.
  rewrite store_in_bounds by (rewrite length_app; simpl; lia).
  cbn [bind]. rewrite <- app_assoc. simpl app.
  rewrite store_in_bounds by assumption.
  reflexivity.
Qed.

(** One iteration with a single element left: the store to [i + 1] is
    past the end. *)
Lemma fill_pair_last_odd (done : list F32.t) (a : F32.t) (i phase : Z) :
  i = Z.of_nat (List.length done) ->
  0 <= phase < 24 ->
  fill_pair i (done ++ [a], phase)%list = Undefined (OOB_write (i + 1) (i + 1)).
Proof.
  intros Hi Hp. unfold fill_pair.
  rewrite load_sin_table_in_range by assumption. cbn [bind].
  rewrite store_past_end by (rewrite length_app; simpl; lia).
  rewrite length_app. simpl. f_equal. f_equal. lia.
Qed.

Lemma repeat_two_more {A : Type} (x : A) (n : nat) :
  repeat x (2 * S n) = x :: x :: repeat x (2 * n).
Proof. replace (2 * S n)%nat with (S (S (2 * n))) by lia. reflexivity. Qed.

(** The loop over an even number of remaining samples. *)
Lemma fill_samples_even (n : nat) :
  forall (done : list F32.t) (phase : Z),
    0 <= phase < 24 ->
    fill_samples (Z.of_nat (List.length done) + 2 * Z.of_nat n)
                 (Z.of_nat (List.length done))
                 (done ++ repeat F32.zero (2 * n), phase)%list =
    Ok ((done ++ tone phase n)%list, (phase + Z.of_nat n) mod 24).
Proof.
  induction n as [ | n IH]; intros done phase Hp.
  - rewrite fill_samples_step.
    destruct (Z.ltb_spec (Z.of_nat (List.length done))
                (Z.of_nat (List.length done) + 2 * Z.of_nat 0)); [lia | ].
    simpl. rewrite Z.add_0_r, Z.mod_small by lia. reflexivity.
  - rewrite fill_samples_step.
    destruct (Z.ltb_spec (Z.of_nat (List.length done))
                (Z.of_nat (List.length done) + 2 * Z.of_nat (S n))); [ | lia].
    rewrite repeat_two_more, fill_pair_in_bounds by auto.
    cbn [bind].
    specialize (IH (done ++ [half_scale phase; half_scale phase])%list
                  (next_phase phase) (next_phase_bound phase Hp)).
    rewrite length_app in IH. cbn [List.length] in IH.
    rewrite <- app_assoc in IH. cbn [app] in IH.
    replace (Z.of_nat (List.length done) + 2 * Z.of_nat (S n))
      with (Z.of_nat (List.length done + 2) + 2 * Z.of_nat n) by lia.
    replace (Z.of_nat (List.length done) + 2)
      with (Z.of_nat (List.length done + 2)) by lia.
    rewrite IH. rewrite <- app_assoc. cbn [app tone].
    rewrite next_phase_in_range by assumption.
    rewrite Zplus_mod_idemp_l.
    replace (phase + 1 + Z.of_nat n) with (phase + Z.of_nat (S n)) by lia.
    reflexivity.
Qed.

(** The loop over an odd number of remaining samples stores past the end
    in its last iteration. *)
Lemma fill_samples_odd (n : nat) :
  forall (done : list F32.t) (phase : Z),
    0 <= phase < 24 ->
    let len := Z.of_nat (List.length done) + 2 * Z.of_nat n + 1 in
    fill_samples len (Z.of_nat (List.length done))
                 (done ++ repeat F32.zero (2 * n + 1), phase)%list =
    Undefined (OOB_write len len).
Proof.
  induction n as [ | n IH]; intros done phase Hp len; subst len.
  - rewrite fill_samples_step.
    destruct (Z.ltb_spec (Z.of_nat (List.length done))
                (Z.of_nat (List.length done) + 2 * Z.of_nat 0 + 1)); [ | lia].
    change (2 * 0 + 1)%nat with 1%nat. cbn [repeat].
    rewrite fill_pair_last_odd by auto.
    simpl. do 2 f_equal; lia.
  - rewrite fill_samples_step.
    destruct (Z.ltb_spec (Z.of_nat (List.length done))
                (Z.of_nat (List.length done) + 2 * Z.of_nat (S n) + 1)); [ | lia].
    replace (2 * S n + 1)%nat with (S (S (2 * n + 1))) by lia.
    cbn [repeat]. rewrite fill_pair_in_bounds by auto.
    cbn [bind].
    specialize (IH (done ++ [half_scale phase; half_scale phase])%list
                  (next_phase phase) (next_phase_bound phase Hp)).
    cbv zeta in IH.
    rewrite length_app in IH. cbn [List.length] in IH.
    rewrite <- app_assoc in IH. cbn [app] in IH.
    replace (Z.of_nat (List.length done) + 2 * Z.of_nat (S n) + 1)
      with (Z.of_nat (List.length done + 2) + 2 * Z.of_nat n + 1) by lia.
    replace (Z.of_nat (List.length done) + 2)
      with (Z.of_nat (List.length done + 2)) by lia.
    exact IH.
Qed.

(** ** The callbacks, one call *)

(** The loop on a buffer of [len] zeroes, [len] even. *)
Lemma fill_samples_even_length (len phase : Z) :
  even_length len -> 0 <= phase < 24 ->
  fill_samples len 0 (repeat F32.zero (Z.to_nat len), phase) =
  Ok (tone phase (Z.to_nat (len / 2)), (phase + len / 2) mod 24).
Proof.
  intros [[Hlen _] Heven] Hp.
  apply Z.even_spec in Heven. destruct Heven as [m ->].
  assert (Hm : 0 <= m) by lia.
  replace (2 * m / 2) with m by (rewrite Z.mul_comm, Z.div_mul; lia).
  pose proof (fill_samples_even (Z.to_nat m) [] phase Hp) as H.
  cbn [List.length app] in H.
  replace (Z.to_nat (2 * m)) with (2 * Z.to_nat m)%nat by lia.
  rewrite Z2Nat.id in H by assumption.
  exact H.
Qed.

(** The loop on a buffer of [len] zeroes, [len] odd. *)
Lemma fill_samples_odd_length (len phase : Z) :
  0 <= len -> Z.odd len = true -> 0 <= phase < 24 ->
  fill_samples len 0 (repeat F32.zero (Z.to_nat len), phase) =
  Undefined (OOB_write len len).
Proof.
  intros Hlen Hodd Hp.
  apply Z.odd_spec in Hodd. destruct Hodd as [m ->].
  assert (Hm : 0 <= m) by lia.
  pose proof (fill_samples_odd (Z.to_nat m) [] phase Hp) as H.
  cbv zeta in H. cbn [List.length app] in H.
  replace (Z.to_nat (2 * m + 1)) with (2 * Z.to_nat m + 1)%nat by lia.
  rewrite Z2Nat.id in H by assumption.
  exact H.
Qed.

(** [packet_rx] once the loop has run. *)
Lemma packet_rx_receiving (ctx : junk_context) (len : Z) (st : list F32.t * Z) :
  tx ctx = false ->
  fill_samples len 0 (repeat F32.zero (Z.to_nat len), rx_phase ctx) = Ok st ->
  packet_rx ctx len =
  Ok (mk_context (snd st) (tx_phase ctx) false (next_snr (snr ctx))
        (to_uint64 (byte_data_counter ctx + 1)),
      [ waveform_send_data_packet (fst st) len SPEAKER_DATA;
        waveform_meter_set_float_value "junk-snr" (F32.of_int (snr ctx));
        waveform_meters_send ] ++ heartbeat (to_uint64 (byte_data_counter ctx + 1)))%list.
Proof.
  intros Htx Hloop. unfold packet_rx. rewrite Htx, Hloop. cbn [bind].
  unfold heartbeat, heartbeat_message, next_snr.
  cbn [byte_data_counter set_byte_data_counter set_snr set_rx_phase
       rx_phase tx_phase tx snr].
  destruct (to_uint64 (byte_data_counter ctx + 1) mod 100 =? 0);
    unfold set_byte_data_counter, set_snr, set_rx_phase;
    cbn [byte_data_counter rx_phase tx_phase tx snr];
    rewrite ?Htx; reflexivity.
Qed.

Lemma packet_rx_undefined (ctx : junk_context) (len : Z) (f : fault) :
  tx ctx = false ->
  fill_samples len 0 (repeat F32.zero (Z.to_nat len), rx_phase ctx) = Undefined f ->
  packet_rx ctx len = Undefined f.
Proof. intros Htx Hloop. unfold packet_rx. rewrite Htx, Hloop. reflexivity. Qed.

(** [packet_tx] once the loop has run. *)
Lemma packet_tx_transmitting (ctx : junk_context) (len : Z) (st : list F32.t * Z) :
  tx ctx = true ->
  fill_samples len 0 (repeat F32.zero (Z.to_nat len), tx_phase ctx) = Ok st ->
  packet_tx ctx len =
  Ok (mk_context (rx_phase ctx) (snd st) true (snr ctx) (byte_data_counter ctx),
      [waveform_send_data_packet (fst st) len TRANSMITTER_DATA]).
Proof.
  intros Htx Hloop. unfold packet_tx. rewrite Htx, Hloop. cbn [bind negb].
  unfold set_tx_phase. rewrite ?Htx. reflexivity.
Qed.

Lemma packet_tx_undefined (ctx : junk_context) (len : Z) (f : fault) :
  tx ctx = true ->
  fill_samples len 0 (repeat F32.zero (Z.to_nat len), tx_phase ctx) = Undefined f ->
  packet_tx ctx len = Undefined f.
Proof. intros Htx Hloop. unfold packet_tx. rewrite Htx, Hloop. reflexivity. Qed.

(** The phase that leaves the loop indexes the table when the phase that
    entered it did. *)
Lemma fill_pair_phase (i : Z) (samples samples' : list F32.t) (phase phase' : Z) :
  fill_pair i (samples, phase) = Ok (samples', phase') ->
  phase' = next_phase phase.
Proof.
  unfold fill_pair.
  destruct (load_sin_table phase) as [s | ]; cbn [bind]; [ | discriminate].
  destruct (store samples (i + 1) _) as [s1 | ]; cbn [bind]; [ | discriminate].
  destruct (store s1 i _) as [s2 | ]; cbn [bind]; [ | discriminate].
  intros H; inversion H; reflexivity.
Qed.

Lemma fill_samples_phase (fuel : nat) :
  forall (len i : Z) (samples samples' : list F32.t) (phase phase' : Z),
    (Z.to_nat (len - i) <= fuel)%nat ->
    0 <= phase < 24 ->
    fill_samples len i (samples, phase) = Ok (samples', phase') ->
    0 <= phase' < 24.
Proof.
  induction fuel as [ | fuel IH]; intros len i samples samples' phase phase' Hm Hp;
    rewrite fill_samples_step; destruct (Z.ltb_spec i len) as [Hlt | Hge];
    try lia; try (intros H; inversion H; subst; assumption).
  destruct (fill_pair i (samples, phase)) as [[s1 p1] | ] eqn:E; cbn [bind];
    [ | discriminate].
  apply fill_pair_phase in E. subst p1.
  apply IH; [lia | apply next_phase_bound; assumption].
Qed.

(** The early returns. *)
Lemma packet_rx_while_transmitting (ctx : junk_context) (len : Z) :
  tx ctx = true -> packet_rx ctx len = Ok (ctx, []).
Proof. intros Htx. unfold packet_rx. rewrite Htx. reflexivity. Qed.

Lemma packet_tx_while_receiving (ctx : junk_context) (len : Z) :
  tx ctx = false -> packet_tx ctx len = Ok (ctx, []).
Proof. intros Htx. unfold packet_tx. rewrite Htx. reflexivity. Qed.

(** ** Dispatch on the transmit flag *)

(** C1.  While the transmit flag is set, [packet_rx] does nothing: it
    returns without a single library call (no sample block, no meter, no
    byte data) and with the context it was given, field for field.  While
    the flag is clear, the same holds of [packet_tx].  This is so for any
    sample count, even or odd. *)
Theorem transmit_flag_gates_the_handlers (ctx : junk_context) (len : Z) :
  (tx ctx = true -> packet_rx ctx len = Ok (ctx, [])) /\
  (tx ctx = false -> packet_tx ctx len = Ok (ctx, [])).
Proof.
  split; intros Htx.
  - apply packet_rx_while_transmitting; assumption.
  - apply packet_tx_while_receiving; assumption.
Qed.

Lemma transmit_flag_gates_the_handlers_witness :
  packet_rx (mk_context 5 7 true 42 99) 3 = Ok (mk_context 5 7 true 42 99, []) /\
  packet_tx (mk_context 5 7 false 42 99) 3 = Ok (mk_context 5 7 false 42 99, []).
Proof.
  split.
  - apply (proj1 (transmit_flag_gates_the_handlers (mk_context 5 7 true 42 99) 3)).
    reflexivity.
  - apply (proj2 (transmit_flag_gates_the_handlers (mk_context 5 7 false 42 99) 3)).
    reflexivity.
Defined.

(** ** State changes *)

(** C7.  A state that is none of [ACTIVE], [INACTIVE], [PTT_REQUESTED] and
    [UNKEY_REQUESTED] makes [state_test] write the line "unknown state
    received" to [stderr] and nothing else; the context, the transmit flag
    included, is the one it was given, and the callback returns normally. *)
Theorem unknown_state_leaves_context (ctx : junk_context) (state : waveform_state) :
  state <> ACTIVE -> state <> INACTIVE ->
  state <> PTT_REQUESTED -> state <> UNKEY_REQUESTED ->
  state_test ctx state = (ctx, [fprintf_stderr "unknown state received"]) /\
  dispatch ctx (state_change state) =
    Ok (ctx, [fprintf_stderr "unknown state received"]).
Proof.
  intros H1 H2 H3 H4.
  destruct state; try congruence. split; reflexivity.
Qed.

Lemma unknown_state_leaves_context_witness :
  state_test (mk_context 3 4 true 17 250) (other_state 9) =
    (mk_context 3 4 true 17 250, [fprintf_stderr "unknown state received"]) /\
  dispatch (mk_context 3 4 true 17 250) (state_change (other_state 9)) =
    Ok (mk_context 3 4 true 17 250, [fprintf_stderr "unknown state received"]).
Proof.
  apply (unknown_state_leaves_context (mk_context 3 4 true 17 250) (other_state 9));
    discriminate.
Defined.

(** ** Buffer bounds *)

(** C9.  With the phases in the table's range and a sample count [len] that
    [get_packet_len] can return, the sample loop of [packet_rx] (transmit
    flag clear) and that of [packet_tx] (flag set) keep every store inside
    the buffer exactly when [len] is even.  When [len] is odd the callback
    runs into a store to index [len] of its buffer of [len] floats, one
    element past the end, in the last iteration. *)
Theorem buffer_writes_need_even_length (ctx : junk_context) (len : Z) :
  sample_count len -> phase_invariant ctx ->
  (tx ctx = false ->
     ((exists r, packet_rx ctx len = Ok r) <-> Z.even len = true) /\
     (Z.odd len = true -> packet_rx ctx len = Undefined (OOB_write len len))) /\
  (tx ctx = true ->
     ((exists r, packet_tx ctx len = Ok r) <-> Z.even len = true) /\
     (Z.odd len = true -> packet_tx ctx len = Undefined (OOB_write len len))).
Proof.
  intros Hcount [Hrx Htxp].
  pose proof (proj1 Hcount) as Hlen.
  split; intros Htx.
  - assert (Hodd : Z.odd len = true ->
                   packet_rx ctx len = Undefined (OOB_write len len)).
    { intros Ho. apply packet_rx_undefined; [assumption | ].
      apply fill_samples_odd_length; assumption. }
    split; [ | exact Hodd]. split.
    + intros [r Hr]. destruct (Z.even len) eqn:He; [reflexivity | ].
      rewrite Hodd in Hr by (rewrite <- Z.negb_even, He; reflexivity).
      discriminate.
    + intros He. eexists. apply packet_rx_receiving; [assumption | ].
      apply fill_samples_even_length; [split | ]; assumption.
  - assert (Hodd : Z.odd len = true ->
                   packet_tx ctx len = Undefined (OOB_write len len)).
    { intros Ho. apply packet_tx_undefined; [assumption | ].
      apply fill_samples_odd_length; assumption. }
    split; [ | exact Hodd]. split.
    + intros [r Hr]. destruct (Z.even len) eqn:He; [reflexivity | ].
      rewrite Hodd in Hr by (rewrite <- Z.negb_even, He; reflexivity).
      discriminate.
    + intros He. eexists. apply packet_tx_transmitting; [assumption | ].
      apply fill_samples_even_length; [split | ]; assumption.
Qed.

Lemma buffer_writes_need_even_length_witness :
  packet_rx initial_context 5 = Undefined (OOB_write 5 5) /\
  packet_tx (set_tx true initial_context) 5 = Undefined (OOB_write 5 5).
Proof.
  assert (Hinv : phase_invariant initial_context) by (unfold phase_invariant; simpl; lia).
  assert (Hinv' : phase_invariant (set_tx true initial_context))
    by (unfold phase_invariant; simpl; lia).
  split.
  - apply (proj1 (buffer_writes_need_even_length initial_context 5
                    ltac:(unfold sample_count; lia) Hinv)); reflexivity.
  - apply (proj2 (buffer_writes_need_even_length (set_tx true initial_context) 5
                    ltac:(unfold sample_count; lia) Hinv')); reflexivity.
Defined.

(** ** The phases stay inside the table *)

Lemma dispatch_phase_invariant (ctx ctx' : junk_context) (cb : callback)
      (evs : list event) :
  phase_invariant ctx -> dispatch ctx cb = Ok (ctx', evs) -> phase_invariant ctx'.
Proof.
  intros [Hrx Htxp] H. destruct cb as [len | len | st]; cbn [dispatch] in H.
  - destruct (tx ctx) eqn:Htx.
    + unfold packet_rx in H. rewrite Htx in H. inversion H; subst. split; assumption.
    + destruct (fill_samples len 0 (repeat F32.zero (Z.to_nat len), rx_phase ctx))
        as [[samples phase] | f] eqn:E.
      * rewrite (packet_rx_receiving _ _ _ Htx E) in H. inversion H; subst.
        split; cbn [rx_phase tx_phase snd]; [ | assumption].
        eapply fill_samples_phase; [apply Nat.le_refl | exact Hrx | exact E].
      * rewrite (packet_rx_undefined _ _ _ Htx E) in H. discriminate.
  - destruct (tx ctx) eqn:Htx.
    + destruct (fill_samples len 0 (repeat F32.zero (Z.to_nat len), tx_phase ctx))
        as [[samples phase] | f] eqn:E.
      * rewrite (packet_tx_transmitting _ _ _ Htx E) in H. inversion H; subst.
        split; cbn [rx_phase tx_phase snd]; [assumption | ].
        eapply fill_samples_phase; [apply Nat.le_refl | exact Htxp | exact E].
      * rewrite (packet_tx_undefined _ _ _ Htx E) in H. discriminate.
    + unfold packet_tx in H. rewrite Htx in H. inversion H; subst. split; assumption.
  - destruct st; inversion H; subst; split; assumption.
Qed.

Lemma run_phase_invariant (cbs : list callback) :
  forall (ctx ctx' : junk_context) (evs : list event),
    phase_invariant ctx -> run cbs ctx = Ok (ctx', evs) -> phase_invariant ctx'.
Proof.
  induction cbs as [ | cb rest IH]; intros ctx ctx' evs Hinv H; cbn [run] in H.
  - inversion H; subst; assumption.
  - destruct (dispatch ctx cb) as [[ctx1 evs1] | ] eqn:E1; cbn [bind fst snd] in H;
      [ | discriminate].
    destruct (run rest ctx1) as [[ctx2 evs2] | ] eqn:E2; cbn [bind fst snd] in H;
      [ | discriminate].
    inversion H; subst.
    eapply IH; [ | exact E2]. eapply dispatch_phase_invariant; eassumption.
Qed.

(** Every callback on a context with the phases in range does return when
    the sample count is even. *)
Lemma dispatch_defined (ctx : junk_context) (cb : callback) :
  phase_invariant ctx ->
  match cb with
  | rx_data len | tx_data len => even_length len
  | state_change _ => True
  end ->
  exists r, dispatch ctx cb = Ok r.
Proof.
  intros [Hrx Htxp] Hcb. destruct cb as [len | len | st]; cbn [dispatch].
  - destruct (tx ctx) eqn:Htx.
    + eexists. apply packet_rx_while_transmitting; assumption.
    + eexists. apply packet_rx_receiving; [assumption | ].
      apply fill_samples_even_length; assumption.
  - destruct (tx ctx) eqn:Htx.
    + eexists. apply packet_tx_transmitting; [assumption | ].
      apply fill_samples_even_length; assumption.
    + eexists. apply packet_tx_while_receiving; assumption.
  - eexists; reflexivity.
Qed.

(** C6.  Both phases are always in [[0, 24)]: they are so in the zeroed
    context that [main] registers; every advance [(phase + 1) % 24] of a
    [uint8_t] phase lands there; every callback ([packet_rx], [packet_tx],
    [state_test]) that starts with the phases in range ends with them in
    range, and does end whenever its sample count is even; hence they are in
    range after any sequence of callbacks from the start. *)
Theorem phases_stay_in_range :
  phase_invariant initial_context /\
  (forall phase, 0 <= phase < 2 ^ 8 -> 0 <= next_phase phase < 24) /\
  (forall ctx cb ctx' evs,
      phase_invariant ctx -> dispatch ctx cb = Ok (ctx', evs) ->
      phase_invariant ctx') /\
  (forall ctx cb,
      phase_invariant ctx ->
      match cb with
      | rx_data len | tx_data len => even_length len
      | state_change _ => True
      end ->
      exists r, dispatch ctx cb = Ok r) /\
  (forall cbs ctx' evs,
      run cbs initial_context = Ok (ctx', evs) -> phase_invariant ctx').
Proof.
  assert (Hinit : phase_invariant initial_context)
    by (unfold phase_invariant; simpl; lia).
  split; [exact Hinit | ].
  split.
  { intros phase Hp. unfold next_phase, to_uint8, to_unsigned.
    rewrite Z.rem_mod_nonneg by lia.
    pose proof (Z.mod_pos_bound (phase + 1) 24 ltac:(lia)) as Hb.
    rewrite Z.mod_small by lia. exact Hb. }
  split; [intros ctx cb ctx' evs; apply dispatch_phase_invariant | ].
  split; [intros ctx cb; apply dispatch_defined | ].
  intros cbs ctx' evs. apply run_phase_invariant. exact Hinit.
Qed.

Lemma phases_stay_in_range_witness :
  phase_invariant initial_context /\
  phase_invariant (mk_context 1 0 false 1 1) /\
  phase_invariant (mk_context 2 1 true 2 2).
Proof.
  pose proof phases_stay_in_range as [Hinit [_ [_ [_ Hrun]]]].
  split; [exact Hinit | split].
  - eapply (Hrun [rx_data 2]). vm_compute. reflexivity.
  - eapply (Hrun [rx_data 2; rx_data 2; state_change PTT_REQUESTED; tx_data 2]).
    vm_compute. reflexivity.
Defined.

(** ** Sequences of receiver packets *)

Lemma tone_app (a b : nat) :
  forall phase, 0 <= phase < 24 ->
    tone phase (a + b) = (tone phase a ++ tone ((phase + Z.of_nat a) mod 24) b)%list.
Proof.
  induction a as [ | a IH]; intros phase Hp.
  - cbn [tone app Nat.add]. rewrite Z.add_0_r, Z.mod_small by lia. reflexivity.
  - cbn [tone app Nat.add]. rewrite IH by (apply next_phase_bound; assumption).
    rewrite next_phase_in_range by assumption.
    rewrite Zplus_mod_idemp_l.
    replace (phase + 1 + Z.of_nat a) with (phase + Z.of_nat (S a)) by lia.
    reflexivity.
Qed.

Lemma speaker_samples_app (evs1 evs2 : list event) :
  speaker_samples (evs1 ++ evs2) = (speaker_samples evs1 ++ speaker_samples evs2)%list.
Proof.
  induction evs1 as [ | e evs1 IH]; [reflexivity | ].
  destruct e as [samples n [ | ] | | | | | ]; cbn [speaker_samples app];
    rewrite IH; try reflexivity.
  apply app_assoc.
Qed.

Lemma heartbeats_app (evs1 evs2 : list event) :
  heartbeats (evs1 ++ evs2) = (heartbeats evs1 ++ heartbeats evs2)%list.
Proof.
  induction evs1 as [ | e evs1 IH]; [reflexivity | ].
  destruct e; cbn [heartbeats app]; rewrite IH; reflexivity.
Qed.

Lemma heartbeats_heartbeat (counter : Z) :
  heartbeats (heartbeat counter) = heartbeat counter.
Proof. unfold heartbeat. destruct (counter mod 100 =? 0); reflexivity. Qed.

Lemma speaker_samples_heartbeat (counter : Z) :
  speaker_samples (heartbeat counter) = [].
Proof. unfold heartbeat. destruct (counter mod 100 =? 0); reflexivity. Qed.

Lemma to_uint64_add_l (a b : Z) : to_uint64 (to_uint64 a + b) = to_uint64 (a + b).
Proof. unfold to_uint64, to_unsigned. apply Zplus_mod_idemp_l. Qed.

(** Receiver packets with even sample counts, one after the other, on a
    context that is not transmitting: the final context and what was sent. *)
Lemma receive_run (lens : list Z) :
  forall ctx,
    tx ctx = false -> 0 <= rx_phase ctx < 24 ->
    0 <= byte_data_counter ctx < 2 ^ 64 ->
    Forall even_length lens ->
    exists ctx' evs,
      run (map rx_data lens) ctx = Ok (ctx', evs) /\
      rx_phase ctx' = (rx_phase ctx + Z.of_nat (total_pairs lens)) mod 24 /\
      tx_phase ctx' = tx_phase ctx /\
      tx ctx' = false /\
      snr ctx' = Nat.iter (List.length lens) next_snr (snr ctx) /\
      byte_data_counter ctx' =
        to_uint64 (byte_data_counter ctx + Z.of_nat (List.length lens)) /\
      speaker_samples evs = tone (rx_phase ctx) (total_pairs lens) /\
      heartbeats evs =
        flat_map (fun k => heartbeat (to_uint64 (byte_data_counter ctx + Z.of_nat k)))
                 (seq 1 (List.length lens)).
Proof.
  induction lens as [ | len rest IH]; intros ctx Htx Hp Hc Hlens.
  - exists ctx, [].
    cbn [map run List.length total_pairs fold_right Nat.iter nat_rect seq
         flat_map tone speaker_samples heartbeats].
    rewrite !Z.add_0_r. unfold to_uint64, to_unsigned.
    rewrite !Z.mod_small by lia. repeat split; solve [reflexivity | assumption].
  - inversion Hlens as [ | ? ? Hlen Hrest]; subst.
    pose proof (fill_samples_even_length len (rx_phase ctx) Hlen Hp) as Hloop.
    pose proof (packet_rx_receiving ctx len _ Htx Hloop) as Hrx.
    cbn [fst snd] in Hrx.
    set (ctx1 := mk_context ((rx_phase ctx + len / 2) mod 24) (tx_phase ctx) false
                   (next_snr (snr ctx)) (to_uint64 (byte_data_counter ctx + 1))) in *.
    destruct (IH ctx1) as (ctx' & evs & Hrun & Hph & Htp & Htx' & Hsnr & Hcnt & Hsp & Hhb).
    + reflexivity.
    + apply Z.mod_pos_bound. lia.
    + apply Z.mod_pos_bound. lia.
    + assumption.
    + destruct Hlen as [[Hlen0 _] Heven].
      assert (Hhalf : 0 <= len / 2) by (apply Z.div_pos; lia).
      eexists ctx', _.
      cbn [map run dispatch]. rewrite Hrx. cbn [bind fst snd]. rewrite Hrun.
      cbn [bind fst snd].
      split; [reflexivity | ].
      subst ctx1. cbn [rx_phase tx_phase tx snr byte_data_counter] in *.
      cbn [List.length total_pairs fold_right].
      fold (total_pairs rest).
      split.
      { rewrite Hph, Zplus_mod_idemp_l. f_equal. lia. }
      split; [assumption | ]. split; [assumption | ].
      split.
      { rewrite Hsnr. symmetry. apply Nat.iter_succ_r. }
      split.
      { rewrite Hcnt, to_uint64_add_l. f_equal. lia. }
      split.
      { rewrite !speaker_samples_app, speaker_samples_heartbeat, Hsp.
        cbn [speaker_samples app]. rewrite !app_nil_r.
        rewrite tone_app by assumption. rewrite Z2Nat.id by assumption.
        reflexivity. }
      { rewrite !heartbeats_app, heartbeats_heartbeat, Hhb.
        cbn [heartbeats app seq flat_map].
        f_equal.
        rewrite <- (seq_shift (List.length rest) 1).
        rewrite (flat_map_concat_map _ (map S _)), map_map, <- flat_map_concat_map.
        apply flat_map_ext. intros k.
        rewrite to_uint64_add_l. do 2 f_equal. lia. }
Qed.

(** ** The meter value *)

Lemma next_snr_in_range (s : Z) :
  -100 <= s <= 100 ->
  next_snr s = (if s + 1 >? 100 then -100 else s + 1) /\
  -100 <= next_snr s <= 100.
Proof.
  intros Hs. unfold next_snr, to_int16, to_signed.
  change (2 ^ (16 - 1)) with 32768. change (2 ^ 16) with 65536.
  replace ((s + 1 + 32768) mod 65536 - 32768) with (s + 1)
    by (rewrite Z.mod_small; lia).
  cbv zeta. destruct (Z.gtb_spec (s + 1) 100); lia.
Qed.

Lemma sawtooth_range (k : nat) : -100 <= sawtooth k <= 100.
Proof.
  unfold sawtooth. destruct (Nat.leb_spec k 100); [lia | ].
  pose proof (Z.mod_pos_bound (Z.of_nat k - 101) 201). lia.
Qed.

Lemma sawtooth_succ (k : nat) : sawtooth (S k) = next_snr (sawtooth k).
Proof.
  destruct (next_snr_in_range (sawtooth k) (sawtooth_range k)) as [-> _].
  unfold sawtooth.
  destruct (Nat.leb_spec (S k) 100); destruct (Nat.leb_spec k 100); try lia.
  - destruct (Z.gtb_spec (Z.of_nat k + 1) 100); lia.
  - assert (k = 100%nat) by lia. subst k. reflexivity.
  - replace (Z.of_nat (S k) - 101) with (Z.of_nat k - 101 + 1) by lia.
    destruct (Z.gtb_spec ((Z.of_nat k - 101) mod 201 - 100 + 1) 100);
      Z.to_euclidean_division_equations; lia.
Qed.

Lemma iter_next_snr (k : nat) : Nat.iter k next_snr 0 = sawtooth k.
Proof.
  induction k as [ | k IH]; [reflexivity | ].
  rewrite Nat.iter_succ, IH. symmetry. apply sawtooth_succ.
Qed.

(** C3.  From the zeroed context, receiver packets that are processed (the
    transmit flag clear, even sample counts) leave in [snr], after [k] of
    them, the value [sawtooth k]: the sequence 0, 1, 2, ..., 100, -100,
    -99, ..., which stays within [[-100, 100]].  Each further packet adds
    exactly 1, unless the sum would exceed 100, in which case [snr] becomes
    -100. *)
Theorem snr_is_a_sawtooth (lens : list Z) :
  Forall even_length lens ->
  exists ctx' evs,
    run (map rx_data lens) initial_context = Ok (ctx', evs) /\
    snr ctx' = sawtooth (List.length lens) /\
    -100 <= snr ctx' <= 100 /\
    map sawtooth (seq 0 103) = (map Z.of_nat (seq 0 101) ++ [-100; -99])%list /\
    forall len,
      even_length len ->
      exists ctx'' evs',
        packet_rx ctx' len = Ok (ctx'', evs') /\
        snr ctx'' = (if snr ctx' + 1 >? 100 then -100 else snr ctx' + 1).
Proof.
  intros Hlens.
  destruct (receive_run lens initial_context) as
    (ctx' & evs & Hrun & Hph & Htp & Htx & Hsnr & Hcnt & _);
    [reflexivity | simpl; lia | simpl; lia | assumption | ].
  cbn [snr initial_context] in Hsnr. rewrite iter_next_snr in Hsnr.
  exists ctx', evs.
  split; [exact Hrun | ]. split; [exact Hsnr | ].
  split; [rewrite Hsnr; apply sawtooth_range | ].
  split; [vm_compute; reflexivity | ].
  intros len Hlen.
  assert (Hp : 0 <= rx_phase ctx' < 24)
    by (rewrite Hph; apply Z.mod_pos_bound; lia).
  pose proof (fill_samples_even_length len (rx_phase ctx') Hlen Hp) as Hloop.
  rewrite (packet_rx_receiving ctx' len _ Htx Hloop).
  eexists _, _. split; [reflexivity | ].
  cbn [snr].
  apply next_snr_in_range. rewrite Hsnr. apply sawtooth_range.
Qed.

Lemma snr_is_a_sawtooth_witness :
  exists ctx' evs,
    run (map rx_data [2; 4; 0; 6]) initial_context = Ok (ctx', evs) /\
    snr ctx' = sawtooth 4 /\
    -100 <= snr ctx' <= 100 /\
    map sawtooth (seq 0 103) = (map Z.of_nat (seq 0 101) ++ [-100; -99])%list /\
    forall len,
      even_length len ->
      exists ctx'' evs',
        packet_rx ctx' len = Ok (ctx'', evs') /\
        snr ctx'' = (if snr ctx' + 1 >? 100 then -100 else snr ctx' + 1).
Proof.
  apply (snr_is_a_sawtooth [2; 4; 0; 6]).
  repeat constructor; unfold sample_count; lia.
Defined.

(** ** The heartbeat *)

Lemma to_uint64_small (x : Z) : 0 <= x < 2 ^ 64 -> to_uint64 x = x.
Proof. intros H. unfold to_uint64, to_unsigned. apply Z.mod_small. exact H. Qed.

Lemma heartbeat_fires (counter : Z) :
  heartbeat counter <> [] <-> counter mod 100 = 0.
Proof.
  unfold heartbeat. destruct (Z.eqb_spec (counter mod 100) 0); split;
    intros; try discriminate; congruence.
Qed.

(** A processed receiver packet, with the counter away from its last value. *)
Lemma packet_rx_counts (ctx : junk_context) (len : Z) :
  tx ctx = false -> phase_invariant ctx -> even_length len ->
  0 <= byte_data_counter ctx < 2 ^ 64 - 1 ->
  exists ctx' evs,
    packet_rx ctx len = Ok (ctx', evs) /\
    byte_data_counter ctx' = byte_data_counter ctx + 1 /\
    heartbeats evs = heartbeat (byte_data_counter ctx + 1).
Proof.
  intros Htx [Hp _] Hlen Hc.
  pose proof (fill_samples_even_length len (rx_phase ctx) Hlen Hp) as Hloop.
  rewrite (packet_rx_receiving ctx len _ Htx Hloop).
  rewrite to_uint64_small by lia.
  eexists _, _. split; [reflexivity | ]. split; [reflexivity | ].
  rewrite heartbeats_app, heartbeats_heartbeat. reflexivity.
Qed.

Lemma dispatch_counter_monotone (ctx ctx' : junk_context) (cb : callback)
      (evs : list event) :
  0 <= byte_data_counter ctx < 2 ^ 64 - 1 ->
  dispatch ctx cb = Ok (ctx', evs) ->
  byte_data_counter ctx <= byte_data_counter ctx'.
Proof.
  intros Hc H. destruct cb as [len | len | st]; cbn [dispatch] in H.
  - destruct (tx ctx) eqn:Htx.
    + rewrite packet_rx_while_transmitting in H by assumption.
      inversion H; subst. lia.
    + destruct (fill_samples len 0 (repeat F32.zero (Z.to_nat len), rx_phase ctx))
        as [st | f] eqn:E.
      * rewrite (packet_rx_receiving _ _ _ Htx E) in H. inversion H; subst.
        cbn [byte_data_counter]. rewrite to_uint64_small by lia. lia.
      * rewrite (packet_rx_undefined _ _ _ Htx E) in H. discriminate.
  - destruct (tx ctx) eqn:Htx.
    + destruct (fill_samples len 0 (repeat F32.zero (Z.to_nat len), tx_phase ctx))
        as [st | f] eqn:E.
      * rewrite (packet_tx_transmitting _ _ _ Htx E) in H. inversion H; subst.
        cbn [byte_data_counter]. lia.
      * rewrite (packet_tx_undefined _ _ _ Htx E) in H. discriminate.
    + rewrite packet_tx_while_receiving in H by assumption.
      inversion H; subst. lia.
  - destruct st; inversion H; subst; cbn [byte_data_counter set_tx]; lia.
Qed.

Lemma receive_pairs_reach (N : nat) (phase s counter : Z) :
  (100 < N)%nat ->
  Z.of_nat N mod 24 = phase ->
  (Z.of_nat N - 101) mod 201 - 100 = s ->
  to_uint64 (Z.of_nat N) = counter ->
  exists evs,
    run (map rx_data (repeat 2 N)) initial_context =
    Ok (mk_context phase 0 false s counter, evs).
Proof.
  intros HN Hphase Hs Hcounter.
  assert (Hpairs : forall n, total_pairs (repeat 2 n) = n).
  { induction n as [ | n IH]; [reflexivity | ].
    cbn [repeat total_pairs fold_right]. fold (total_pairs (repeat 2 n)).
    rewrite IH. reflexivity. }
  destruct (receive_run (repeat 2 N) initial_context) as
    (ctx' & evs & Hrun & Hph & Htp & Htx & Hsnr & Hcnt & _);
    [reflexivity | cbn [rx_phase initial_context]; lia
     | cbn [byte_data_counter initial_context]; lia
     | apply Forall_forall; intros x Hx; apply repeat_spec in Hx; subst x;
       split; [unfold sample_count; lia | reflexivity]
     | ].
  exists evs. rewrite Hrun. do 2 f_equal.
  rewrite repeat_length in Hsnr, Hcnt. rewrite Hpairs in Hph.
  cbn [rx_phase tx_phase snr byte_data_counter initial_context] in *.
  rewrite iter_next_snr in Hsnr. unfold sawtooth in Hsnr.
  destruct (Nat.leb_spec N 100) as [Hle | _]; [lia | ].
  rewrite !Z.add_0_l in *.
  destruct ctx'; cbn [rx_phase tx_phase tx snr byte_data_counter] in *.
  congruence.
Qed.

(** The counter value [2 ^ 64 - 1] is the one the zeroed context has after
    that many receiver packets of two samples. *)
Lemma last_counter_value_is_reached :
  exists evs,
    run (map rx_data (repeat 2 (Z.to_nat (2 ^ 64 - 1)))) initial_context =
    Ok (mk_context 15 0 false (-51) (2 ^ 64 - 1), evs).
Proof.
  assert (HZ : Z.of_nat (Z.to_nat (2 ^ 64 - 1)) = 2 ^ 64 - 1)
    by (apply Z2Nat.id; lia).
  apply receive_pairs_reach; rewrite ?HZ.
  - apply Nat2Z.inj_lt. rewrite HZ. lia.
  - reflexivity.
  - reflexivity.
  - reflexivity.
Qed.

(** At the last value of the counter the claim C4 fails: the packet is
    processed, a heartbeat is sent although the incremented counter is 0,
    which is no positive multiple of 100, and the counter has decreased. *)
Lemma heartbeat_when_counter_wraps :
  exists ctx' evs,
    packet_rx (mk_context 15 0 false (-51) (2 ^ 64 - 1)) 2 = Ok (ctx', evs) /\
    heartbeats evs <> [] /\
    ~ 0 < byte_data_counter ctx' /\
    byte_data_counter ctx' < 2 ^ 64 - 1.
Proof.
  eexists _, _. split; [vm_compute; reflexivity | ].
  cbn [byte_data_counter]. split; [discriminate | lia].
Qed.

(** C4, amended.  While the 64-bit counter has not reached its last value
    [2 ^ 64 - 1], a processed receiver packet increments it, and sends a
    heartbeat if and only if the incremented counter is a positive multiple
    of 100; no callback makes the counter decrease.  From the zeroed context,
    250 processed packets send exactly two heartbeats, those of the counts
    100 and 200. *)
Theorem heartbeat_every_hundredth_packet :
  (forall ctx len,
      tx ctx = false -> phase_invariant ctx -> even_length len ->
      0 <= byte_data_counter ctx < 2 ^ 64 - 1 ->
      exists ctx' evs,
        packet_rx ctx len = Ok (ctx', evs) /\
        byte_data_counter ctx' = byte_data_counter ctx + 1 /\
        (heartbeats evs <> [] <->
         0 < byte_data_counter ctx' /\ byte_data_counter ctx' mod 100 = 0)) /\
  (forall ctx cb ctx' evs,
      0 <= byte_data_counter ctx < 2 ^ 64 - 1 ->
      dispatch ctx cb = Ok (ctx', evs) ->
      byte_data_counter ctx <= byte_data_counter ctx') /\
  (forall lens,
      List.length lens = 250%nat -> Forall even_length lens ->
      exists ctx' evs,
        run (map rx_data lens) initial_context = Ok (ctx', evs) /\
        byte_data_counter ctx' = 250 /\
        heartbeats evs =
          [ waveform_send_byte_data_packet (heartbeat_message 100) 23;
            waveform_send_byte_data_packet (heartbeat_message 200) 23 ]).
Proof.
  split; [ | split].
  - intros ctx len Htx Hinv Hlen Hc.
    destruct (packet_rx_counts ctx len Htx Hinv Hlen Hc) as (ctx' & evs & Hrx & Hcnt & Hhb).
    exists ctx', evs. split; [exact Hrx | ]. split; [exact Hcnt | ].
    rewrite Hhb, Hcnt, heartbeat_fires. split; [intros H; split; [lia | exact H] | tauto].
  - intros ctx cb ctx' evs. apply dispatch_counter_monotone.
  - intros lens Hn Hlens.
    destruct (receive_run lens initial_context) as
      (ctx' & evs & Hrun & _ & _ & _ & _ & Hcnt & _ & Hhb);
      [reflexivity | simpl; lia | simpl; lia | assumption | ].
    exists ctx', evs. rewrite Hn in *.
    split; [exact Hrun | ]. split; [rewrite Hcnt; reflexivity | ].
    rewrite Hhb. vm_compute. reflexivity.
Qed.

Lemma heartbeat_every_hundredth_packet_witness :
  exists ctx' evs,
    packet_rx (mk_context 3 0 false 99 99) 2 = Ok (ctx', evs) /\
    byte_data_counter ctx' = 99 + 1 /\
    (heartbeats evs <> [] <->
     0 < byte_data_counter ctx' /\ byte_data_counter ctx' mod 100 = 0).
Proof.
  apply (proj1 heartbeat_every_hundredth_packet (mk_context 3 0 false 99 99) 2).
  - reflexivity.
  - unfold phase_invariant; simpl; lia.
  - unfold even_length, sample_count; split; [lia | reflexivity].
  - simpl; lia.
Defined.

(** ** The text of the heartbeat *)

Lemma string_append_assoc (a b c : string) :
  ((a ++ b) ++ c = a ++ (b ++ c))%string.
Proof. induction a as [ | x a IH]; simpl; [ | rewrite IH]; reflexivity. Qed.

Lemma string_length_append (a b : string) :
  String.length (a ++ b) = (String.length a + String.length b)%nat.
Proof. induction a as [ | x a IH]; simpl; [ | rewrite IH]; reflexivity. Qed.

Lemma list_byte_of_string_append (a b : string) :
  list_byte_of_string (a ++ b) =
  (list_byte_of_string a ++ list_byte_of_string b)%list.
Proof.
  unfold list_byte_of_string.
  induction a as [ | x a IH]; simpl; [ | rewrite IH]; reflexivity.
Qed.

Lemma to_int64_small (x : Z) : 0 <= x < 2 ^ 63 -> to_int64 x = x.
Proof.
  intros H. unfold to_int64, to_signed.
  change (2 ^ (64 - 1)) with (2 ^ 63). rewrite Z.mod_small; lia.
Qed.

(** The message for a counter that [long] holds: the line, the line feed
    and the terminating zero. *)
Lemma heartbeat_message_small (counter : Z) :
  0 <= counter < 2 ^ 63 ->
  heartbeat_message counter =
    (list_byte_of_string ("Callback Counter: " ++ decimal counter) ++ [x0a; x00])%list /\
  Z.of_nat (String.length (callback_counter_text counter)) + 1 =
    Z.of_nat (String.length ("Callback Counter: " ++ decimal counter)) + 2.
Proof.
  intros Hc. unfold heartbeat_message, callback_counter_text.
  rewrite to_int64_small by assumption.
  rewrite <- string_append_assoc.
  rewrite list_byte_of_string_append, string_length_append.
  split; [rewrite <- app_assoc; reflexivity | simpl String.length; lia].
Qed.

(** On the hundredth receiver packet the claim C8 fails: the bytes sent are
    not the text "Callback Counter: 100", nor that text with a line feed;
    they number 23 and end with a line feed and a zero byte. *)
Lemma heartbeat_message_is_longer :
  exists ctx' evs data,
    packet_rx (mk_context 3 0 false 99 99) 2 = Ok (ctx', evs) /\
    byte_data_counter ctx' = 100 /\
    heartbeats evs = [waveform_send_byte_data_packet data 23] /\
    data <> list_byte_of_string "Callback Counter: 100" /\
    data <> list_byte_of_string ("Callback Counter: 100" ++ newline) /\
    data = (list_byte_of_string "Callback Counter: 100" ++ [x0a; x00])%list.
Proof.
  eexists _, _, _. split; [vm_compute; reflexivity | ].
  split; [reflexivity | ]. split; [reflexivity | ].
  split; [discriminate | ]. split; [discriminate | reflexivity].
Qed.

(** C8, amended.  When a processed receiver packet brings the counter to a
    multiple [n] of 100 below [2 ^ 63], the one byte data packet it sends
    holds the text "Callback Counter: <n>", [n] in decimal being the counter
    value after the increment, followed by a line feed and by a terminating
    zero byte; the size passed along counts both. *)
Theorem heartbeat_message_content (ctx : junk_context) (len : Z) :
  tx ctx = false -> phase_invariant ctx -> even_length len ->
  0 <= byte_data_counter ctx ->
  (byte_data_counter ctx + 1) mod 100 = 0 ->
  byte_data_counter ctx + 1 < 2 ^ 63 ->
  exists ctx' evs,
    packet_rx ctx len = Ok (ctx', evs) /\
    byte_data_counter ctx' = byte_data_counter ctx + 1 /\
    heartbeats evs =
      [ waveform_send_byte_data_packet
          (list_byte_of_string
             ("Callback Counter: " ++ decimal (byte_data_counter ctx')) ++ [x0a; x00])
          (Z.of_nat (String.length
             ("Callback Counter: " ++ decimal (byte_data_counter ctx'))) + 2) ].
Proof.
  intros Htx Hinv Hlen Hc0 Hmod Hc.
  destruct (packet_rx_counts ctx len Htx Hinv Hlen) as (ctx' & evs & Hrx & Hcnt & Hhb);
    [lia | ].
  exists ctx', evs. split; [exact Hrx | ]. split; [exact Hcnt | ].
  rewrite Hhb, Hcnt. unfold heartbeat.
  destruct (Z.eqb_spec ((byte_data_counter ctx + 1) mod 100) 0); [ | contradiction].
  destruct (heartbeat_message_small (byte_data_counter ctx + 1)) as [-> ->]; [lia | ].
  reflexivity.
Qed.

Lemma heartbeat_message_content_witness :
  exists ctx' evs,
    packet_rx (mk_context 3 0 false 99 99) 2 = Ok (ctx', evs) /\
    byte_data_counter ctx' = 99 + 1 /\
    heartbeats evs =
      [ waveform_send_byte_data_packet
          (list_byte_of_string
             ("Callback Counter: " ++ decimal (byte_data_counter ctx')) ++ [x0a; x00])
          (Z.of_nat (String.length
             ("Callback Counter: " ++ decimal (byte_data_counter ctx'))) + 2) ].
Proof.
  apply (heartbeat_message_content (mk_context 3 0 false 99 99) 2).
  - reflexivity.
  - unfold phase_invariant; simpl; lia.
  - unfold even_length, sample_count; split; [lia | reflexivity].
  - simpl; lia.
  - reflexivity.
  - simpl; lia.
Defined.

(** ** Twenty-four packets of one stereo pair *)

(** The context after 24 receiver packets of two samples from the start:
    the claim C5 fails on [snr], which is 24 and not -76. *)
Lemma snr_after_one_cycle_is_24 :
  exists ctx' evs,
    run (repeat (rx_data 2) 24) initial_context = Ok (ctx', evs) /\
    snr ctx' = 24 /\
    snr ctx' <> -76.
Proof.
  eexists _, _. split; [vm_compute; reflexivity | ].
  cbn [snr]. split; [reflexivity | discriminate].
Qed.

(** C5, amended.  From the zeroed context, transmit flag clear, 24 receiver
    packets of two samples each are all processed; the samples sent to the
    speaker are one full cycle of the table at half scale, each value on both
    channels; [snr] ends at 24, the values reported to the meter being 0, 1,
    ..., 23 in this order, so that the last one reported is 23; the phase is
    back at 0 and no heartbeat is sent. *)
Theorem one_cycle_of_single_pair_packets :
  exists ctx' evs,
    run (repeat (rx_data 2) 24) initial_context = Ok (ctx', evs) /\
    speaker_samples evs = flat_map (fun v => [v; v]) half_table /\
    window (speaker_samples evs) 0 = half_table /\
    ctx' = mk_context 0 0 false 24 24 /\
    In (waveform_meter_set_float_value "junk-snr" (F32.of_int 23)) evs /\
    meter_values evs =
      map (fun k => ("junk-snr"%string, F32.of_int (Z.of_nat k))) (seq 0 24) /\
    last (meter_values evs) ("junk-snr"%string, F32.zero) =
      ("junk-snr"%string, F32.of_int 23) /\
    heartbeats evs = [].
Proof.
  eexists _, _. split; [vm_compute; reflexivity | ].
  split; [vm_compute; reflexivity | ].
  split; [vm_compute; reflexivity | ].
  split; [reflexivity | ].
  split; [vm_compute; do 70 right; left; reflexivity | ].
  split; [vm_compute; reflexivity | ].
  split; [vm_compute; reflexivity | reflexivity].
Qed.

(** ** The synthesised tone *)

Lemma iter_next_phase (n : nat) (phase : Z) :
  0 <= phase < 24 ->
  Nat.iter n next_phase phase = (phase + Z.of_nat n) mod 24.
Proof.
  intros Hp. induction n as [ | n IH].
  - cbn [Nat.iter nat_rect]. rewrite Z.add_0_r, Z.mod_small by lia. reflexivity.
  - rewrite Nat.iter_succ, IH.
    rewrite next_phase_in_range by (apply Z.mod_pos_bound; lia).
    rewrite Zplus_mod_idemp_l. f_equal. lia.
Qed.

Lemma tone_length (n : nat) (phase : Z) :
  List.length (tone phase n) = (2 * n)%nat.
Proof.
  revert phase. induction n as [ | n IH]; intros phase; [reflexivity | ].
  cbn [tone List.length]. rewrite IH. lia.
Qed.

(** Both channels of pair [k] carry the table entry of its phase. *)
Lemma tone_pair (n : nat) :
  forall (phase : Z) (k : nat),
    0 <= phase < 24 -> (k < n)%nat ->
    left_sample (tone phase n) k = half_scale ((phase + Z.of_nat k) mod 24) /\
    right_sample (tone phase n) k = half_scale ((phase + Z.of_nat k) mod 24).
Proof.
  unfold left_sample, right_sample.
  induction n as [ | n IH]; intros phase k Hp Hk; [lia | ].
  destruct k as [ | k].
  - cbn [tone Nat.mul Nat.add nth]. rewrite Z.add_0_r, Z.mod_small by lia.
    split; reflexivity.
  - replace (2 * S k)%nat with (S (S (2 * k))) by lia.
    cbn [tone Nat.add nth].
    destruct (IH (next_phase phase) k (next_phase_bound phase Hp) ltac:(lia))
      as [Hl Hr].
    rewrite next_phase_in_range, Zplus_mod_idemp_l in Hl, Hr by assumption.
    replace (phase + 1 + Z.of_nat k) with (phase + Z.of_nat (S k)) in Hl, Hr by lia.
    rewrite next_phase_in_range by assumption.
    split; assumption.
Qed.

(** One period read from phase [r] on is the half-scale table rotated by
    [r]. *)
Lemma period_from_phase (r : nat) :
  (r < 24)%nat ->
  map (fun j => half_scale ((Z.of_nat r + Z.of_nat j) mod 24)) (seq 0 24) =
  rotate r half_table.
Proof.
  intros Hr.
  do 24 (destruct r as [ | r]; [vm_compute; reflexivity | ]).
  lia.
Qed.

Lemma window_of_tone (n k : nat) (phase : Z) :
  0 <= phase < 24 -> (k + 24 <= n)%nat ->
  window (tone phase n) k =
  rotate (Z.to_nat ((phase + Z.of_nat k) mod 24)) half_table.
Proof.
  intros Hp Hk. unfold window.
  pose proof (Z.mod_pos_bound (phase + Z.of_nat k) 24 ltac:(lia)) as Hr.
  rewrite <- period_from_phase by lia.
  apply map_ext_in. intros j Hj. apply in_seq in Hj.
  destruct (tone_pair n phase (k + j) Hp ltac:(lia)) as [-> _].
  rewrite Z2Nat.id by lia. rewrite Zplus_mod_idemp_l. f_equal. f_equal. lia.
Qed.

(** Halving is exact on every entry of the table. *)
Lemma half_table_exact :
  forallb (fun sh => Qeq_bool (F32.to_Q (snd sh)) (F32.to_Q (fst sh) * (1 # 2))%Q)
          (combine sin_table half_table) = true.
Proof. vm_compute. reflexivity. Qed.

(** No rotation of the half-scale table by less than a period gives the
    table back. *)
Lemma rotated_table_differs (r : nat) :
  (0 < r < 24)%nat -> rotate r half_table <> half_table.
Proof.
  intros Hr. destruct r as [ | r]; [lia | ].
  do 23 (destruct r as [ | r]; [vm_compute; discriminate | ]).
  lia.
Qed.

(** C2.  [n] advances of the phase from 0 leave it at [n mod 24].  From the
    zeroed context, processed receiver packets (even sample counts) send a
    stream in which the [k]-th stereo pair carries
    [sin_table[k mod 24] * 0.5F] on both channels, the phase advancing once
    per pair and going on from one packet to the next.  So any 24 consecutive
    pairs reproduce the table at half scale, entry for entry, in its cyclic
    order: the window from pair [k] on is the half-scale table read from
    entry [k mod 24] round to the entry before it, which is the table in its
    own order exactly when [k] is a multiple of 24. *)
Theorem tone_follows_the_table (lens : list Z) :
  Forall even_length lens ->
  (forall n, Nat.iter n next_phase 0 = Z.of_nat n mod 24) /\
  exists ctx' evs,
    run (map rx_data lens) initial_context = Ok (ctx', evs) /\
    rx_phase ctx' = Z.of_nat (total_pairs lens) mod 24 /\
    List.length (speaker_samples evs) = (2 * total_pairs lens)%nat /\
    (forall k, (k < total_pairs lens)%nat ->
       left_sample (speaker_samples evs) k =
         F32.mul (nth (k mod 24) sin_table F32.zero) F32.half /\
       right_sample (speaker_samples evs) k =
         F32.mul (nth (k mod 24) sin_table F32.zero) F32.half) /\
    (forall k, (k + 24 <= total_pairs lens)%nat ->
       window (speaker_samples evs) k = rotate (k mod 24) half_table /\
       (window (speaker_samples evs) k = half_table <-> (k mod 24 = 0)%nat)).
Proof.
  intros Hlens.
  split; [intros n; rewrite iter_next_phase by lia; reflexivity | ].
  destruct (receive_run lens initial_context) as
    (ctx' & evs & Hrun & Hph & _ & _ & _ & _ & Hsp & _);
    [reflexivity | simpl; lia | simpl; lia | assumption | ].
  cbn [rx_phase initial_context] in Hph, Hsp. rewrite Z.add_0_l in Hph.
  exists ctx', evs.
  split; [exact Hrun | ]. split; [exact Hph | ].
  rewrite Hsp.
  split; [apply tone_length | ].
  assert (Hmod : forall k, Z.to_nat ((0 + Z.of_nat k) mod 24) = (k mod 24)%nat).
  { intros k. rewrite Z.add_0_l.
    change 24 with (Z.of_nat 24). rewrite <- Nat2Z.inj_mod. apply Nat2Z.id. }
  split.
  - intros k Hk.
    destruct (tone_pair (total_pairs lens) 0 k ltac:(lia) Hk) as [-> ->].
    unfold half_scale. rewrite Hmod. split; reflexivity.
  - intros k Hk.
    rewrite window_of_tone by (assumption || lia). rewrite Hmod.
    split; [reflexivity | ].
    split; [ | intros ->; reflexivity].
    intros Hw. destruct (Nat.eq_dec (k mod 24) 0) as [ | Hne]; [assumption | ].
    exfalso. apply (rotated_table_differs (k mod 24)); [ | exact Hw].
    pose proof (Nat.mod_upper_bound k 24). lia.
Qed.

Lemma tone_follows_the_table_witness :
  (forall n, Nat.iter n next_phase 0 = Z.of_nat n mod 24) /\
  exists ctx' evs,
    run (map rx_data [2; 48; 10]) initial_context = Ok (ctx', evs) /\
    rx_phase ctx' = Z.of_nat (total_pairs [2; 48; 10]) mod 24 /\
    List.length (speaker_samples evs) = (2 * total_pairs [2; 48; 10]%Z)%nat /\
    (forall k, (k < total_pairs [2; 48; 10]%Z)%nat ->
       left_sample (speaker_samples evs) k =
         F32.mul (nth (k mod 24) sin_table F32.zero) F32.half /\
       right_sample (speaker_samples evs) k =
         F32.mul (nth (k mod 24) sin_table F32.zero) F32.half) /\
    (forall k, (k + 24 <= total_pairs [2; 48; 10]%Z)%nat ->
       window (speaker_samples evs) k = rotate (k mod 24) half_table /\
       (window (speaker_samples evs) k = half_table <-> (k mod 24 = 0)%nat)).
Proof.
  apply (tone_follows_the_table [2; 48; 10]).
  repeat constructor; unfold sample_count; lia.
Defined.

(** * Further properties *)

(** ** Callbacks in closed form *)

Lemma dispatch_effect (ctx : junk_context) (cb : callback) :
  phase_invariant ctx -> even_packet cb -> dispatch ctx cb = Ok (effect ctx cb).
Proof.
  intros [Hrx Htxp] Hcb. destruct cb as [len | len | st]; cbn [dispatch effect].
  - destruct (tx ctx) eqn:Htx.
    + apply packet_rx_while_transmitting; assumption.
    + rewrite (packet_rx_receiving ctx len _ Htx
                 (fill_samples_even_length len (rx_phase ctx) Hcb Hrx)).
      reflexivity.
  - destruct (tx ctx) eqn:Htx.
    + rewrite (packet_tx_transmitting ctx len _ Htx
                 (fill_samples_even_length len (tx_phase ctx) Hcb Htxp)).
      reflexivity.
    + apply packet_tx_while_receiving; assumption.
  - reflexivity.
Qed.

Lemma effect_phase_invariant (ctx : junk_context) (cb : callback) :
  phase_invariant ctx -> even_packet cb -> phase_invariant (fst (effect ctx cb)).
Proof.
  intros Hinv Hcb.
  apply (dispatch_phase_invariant ctx _ cb (snd (effect ctx cb)) Hinv).
  rewrite <- surjective_pairing. apply dispatch_effect; assumption.
Qed.

Lemma run_effects (cbs : list callback) :
  forall ctx,
    phase_invariant ctx -> Forall even_packet cbs ->
    run cbs ctx = Ok (effects cbs ctx).
Proof.
  induction cbs as [ | cb rest IH]; intros ctx Hinv Hcbs; [reflexivity | ].
  inversion Hcbs as [ | ? ? Hcb Hrest]; subst.
  cbn [run effects]. rewrite dispatch_effect by assumption. cbn [bind].
  rewrite IH by (try apply effect_phase_invariant; assumption).
  reflexivity.
Qed.

Lemma transmitter_samples_app (evs1 evs2 : list event) :
  transmitter_samples (evs1 ++ evs2) =
  (transmitter_samples evs1 ++ transmitter_samples evs2)%list.
Proof.
  induction evs1 as [ | e evs1 IH]; [reflexivity | ].
  destruct e as [samples n [ | ] | | | | | ]; cbn [transmitter_samples app];
    rewrite IH; try reflexivity.
  apply app_assoc.
Qed.

Lemma meter_values_app (evs1 evs2 : list event) :
  meter_values (evs1 ++ evs2) = (meter_values evs1 ++ meter_values evs2)%list.
Proof.
  induction evs1 as [ | e evs1 IH]; [reflexivity | ].
  destruct e; cbn [meter_values app]; rewrite IH; reflexivity.
Qed.

Lemma data_packets_app (evs1 evs2 : list event) :
  data_packets (evs1 ++ evs2) = (data_packets evs1 ++ data_packets evs2)%list.
Proof.
  induction evs1 as [ | e evs1 IH]; [reflexivity | ].
  destruct e; cbn [data_packets app]; rewrite IH; reflexivity.
Qed.

Lemma api_commands_app (evs1 evs2 : list event) :
  api_commands (evs1 ++ evs2) = (api_commands evs1 ++ api_commands evs2)%list.
Proof.
  induction evs1 as [ | e evs1 IH]; [reflexivity | ].
  destruct e; cbn [api_commands app]; rewrite IH; reflexivity.
Qed.

(** A heartbeat is byte data only. *)
Lemma heartbeat_is_byte_data (counter : Z) :
  transmitter_samples (heartbeat counter) = [] /\
  meter_values (heartbeat counter) = [] /\
  data_packets (heartbeat counter) = [] /\
  api_commands (heartbeat counter) = [].
Proof.
  unfold heartbeat. destruct (counter mod 100 =? 0); repeat split; reflexivity.
Qed.

(** The events of a state change are log lines and commands. *)
Lemma state_test_events (ctx : junk_context) (st : waveform_state) :
  speaker_samples (snd (state_test ctx st)) = [] /\
  transmitter_samples (snd (state_test ctx st)) = [] /\
  heartbeats (snd (state_test ctx st)) = [] /\
  meter_values (snd (state_test ctx st)) = [] /\
  data_packets (snd (state_test ctx st)) = [].
Proof. destruct st; repeat split; reflexivity. Qed.

(** A state change writes the transmit flag at most. *)
Lemma state_test_fields (ctx : junk_context) (st : waveform_state) :
  rx_phase (fst (state_test ctx st)) = rx_phase ctx /\
  tx_phase (fst (state_test ctx st)) = tx_phase ctx /\
  snr (fst (state_test ctx st)) = snr ctx /\
  byte_data_counter (fst (state_test ctx st)) = byte_data_counter ctx /\
  tx (fst (state_test ctx st)) = keyed [state_change st] (tx ctx).
Proof. destruct st; repeat split; reflexivity. Qed.

Lemma keyed_cons (cb : callback) (rest : list callback) (flag : bool) :
  keyed (cb :: rest) flag = keyed rest (keyed [cb] flag).
Proof. destruct cb as [ | | [ | | | | ]]; reflexivity. Qed.

Lemma received_state_change (st : waveform_state) (rest : list callback) (flag : bool) :
  received (state_change st :: rest) flag =
  received rest (keyed [state_change st] flag).
Proof. reflexivity. Qed.

Lemma transmitted_state_change (st : waveform_state) (rest : list callback) (flag : bool) :
  transmitted (state_change st :: rest) flag =
  transmitted rest (keyed [state_change st] flag).
Proof. reflexivity. Qed.

(** ** Whole runs *)

Lemma to_uint64_range (x : Z) : 0 <= to_uint64 x < 2 ^ 64.
Proof. unfold to_uint64, to_unsigned. apply Z.mod_pos_bound. lia. Qed.

(** The context after a run of callbacks with even sample counts. *)
Lemma effects_fields (cbs : list callback) :
  forall ctx,
    phase_invariant ctx ->
    Forall even_packet cbs ->
    tx (fst (effects cbs ctx)) = keyed cbs (tx ctx) /\
    rx_phase (fst (effects cbs ctx)) =
      (rx_phase ctx + Z.of_nat (total_pairs (received cbs (tx ctx)))) mod 24 /\
    tx_phase (fst (effects cbs ctx)) =
      (tx_phase ctx + Z.of_nat (total_pairs (transmitted cbs (tx ctx)))) mod 24 /\
    snr (fst (effects cbs ctx)) =
      Nat.iter (List.length (received cbs (tx ctx))) next_snr (snr ctx) /\
    (0 <= byte_data_counter ctx < 2 ^ 64 ->
     byte_data_counter (fst (effects cbs ctx)) =
       to_uint64 (byte_data_counter ctx
                  + Z.of_nat (List.length (received cbs (tx ctx))))).
Proof.
  induction cbs as [ | cb rest IH]; intros ctx Hinv Hcbs.
  - destruct Hinv as [Hrx Htxp].
    cbn [effects fst received transmitted total_pairs fold_right List.length
         Nat.iter nat_rect keyed].
    rewrite !Z.add_0_r, !Z.mod_small by lia.
    repeat split; try reflexivity.
    intros Hc. rewrite to_uint64_small by lia. reflexivity.
  - inversion Hcbs as [ | ? ? Hcb Hrest]; subst.
    pose proof (effect_phase_invariant ctx cb Hinv Hcb) as Hinv1.
    destruct Hinv as [Hrx Htxp].
    cbn [effects fst]. rewrite keyed_cons.
    destruct cb as [len | len | st].
    + cbn [effect] in *. cbn [keyed received transmitted].
      destruct (tx ctx) eqn:Htx; cbn [fst] in *.
      * specialize (IH ctx Hinv1 Hrest). rewrite Htx in IH. exact IH.
      * destruct Hcb as [[Hlen0 _] _].
        assert (Hhalf : 0 <= len / 2) by (apply Z.div_pos; lia).
        specialize (IH _ Hinv1 Hrest).
        cbn [tx rx_phase tx_phase snr byte_data_counter] in IH.
        destruct IH as (Hf & Hr & Ht & Hs & Hn).
        cbn [List.length total_pairs fold_right]. fold (total_pairs (received rest false)).
        split; [exact Hf | ].
        split; [rewrite Hr, Zplus_mod_idemp_l; f_equal; lia | ].
        split; [exact Ht | ].
        split; [rewrite Hs; symmetry; apply Nat.iter_succ_r | ].
        intros _. rewrite (Hn (to_uint64_range _)), to_uint64_add_l. f_equal. lia.
    + cbn [effect] in *. cbn [keyed received transmitted].
      destruct (tx ctx) eqn:Htx; cbn [fst] in *.
      * destruct Hcb as [[Hlen0 _] _].
        assert (Hhalf : 0 <= len / 2) by (apply Z.div_pos; lia).
        specialize (IH _ Hinv1 Hrest).
        cbn [tx rx_phase tx_phase snr byte_data_counter] in IH.
        destruct IH as (Hf & Hr & Ht & Hs & Hn).
        cbn [List.length total_pairs fold_right].
        fold (total_pairs (transmitted rest true)).
        split; [exact Hf | ]. split; [exact Hr | ].
        split; [rewrite Ht, Zplus_mod_idemp_l; f_equal; lia | ].
        split; assumption.
      * specialize (IH ctx Hinv1 Hrest). rewrite Htx in IH. exact IH.
    + cbn [effect] in *.
      rewrite received_state_change, transmitted_state_change.
      destruct (state_test_fields ctx st) as (Er & Et & Es & En & Ef).
      specialize (IH _ Hinv1 Hrest).
      rewrite Er, Et, Es, En, Ef in IH. exact IH.
Qed.

(** What a run of callbacks with even sample counts sends. *)
Lemma effects_events (cbs : list callback) :
  forall ctx,
    phase_invariant ctx ->
    Forall even_packet cbs ->
    speaker_samples (snd (effects cbs ctx)) =
      tone (rx_phase ctx) (total_pairs (received cbs (tx ctx))) /\
    transmitter_samples (snd (effects cbs ctx)) =
      tone (tx_phase ctx) (total_pairs (transmitted cbs (tx ctx))) /\
    heartbeats (snd (effects cbs ctx)) =
      flat_map (fun k => heartbeat (to_uint64 (byte_data_counter ctx + Z.of_nat k)))
               (seq 1 (List.length (received cbs (tx ctx)))) /\
    meter_values (snd (effects cbs ctx)) =
      map (fun k => ("junk-snr"%string, F32.of_int (Nat.iter k next_snr (snr ctx))))
          (seq 0 (List.length (received cbs (tx ctx)))).
Proof.
  induction cbs as [ | cb rest IH]; intros ctx Hinv Hcbs.
  - repeat split; reflexivity.
  - inversion Hcbs as [ | ? ? Hcb Hrest]; subst.
    pose proof (effect_phase_invariant ctx cb Hinv Hcb) as Hinv1.
    destruct Hinv as [Hrx Htxp].
    cbn [effects snd].
    rewrite speaker_samples_app, transmitter_samples_app, heartbeats_app,
      meter_values_app.
    destruct cb as [len | len | st].
    + cbn [effect] in *. cbn [received transmitted keyed].
      destruct (tx ctx) eqn:Htx; cbn [fst snd] in *.
      * specialize (IH ctx Hinv1 Hrest). rewrite Htx in IH. exact IH.
      * destruct Hcb as [[Hlen0 _] _].
        assert (Hhalf : 0 <= len / 2) by (apply Z.div_pos; lia).
        specialize (IH _ Hinv1 Hrest).
        cbn [tx rx_phase tx_phase snr byte_data_counter] in IH.
        destruct IH as (Hs & Ht & Hh & Hm).
        destruct (heartbeat_is_byte_data (to_uint64 (byte_data_counter ctx + 1)))
          as (Bt & Bm & _ & _).
        rewrite speaker_samples_app, transmitter_samples_app, heartbeats_app,
          meter_values_app.
        rewrite speaker_samples_heartbeat, heartbeats_heartbeat, Bt, Bm.
        cbn [speaker_samples transmitter_samples heartbeats meter_values app].
        rewrite !app_nil_r.
        cbn [List.length total_pairs fold_right].
        fold (total_pairs (received rest false)).
        split.
        { rewrite Hs, tone_app by assumption.
          rewrite Z2Nat.id by assumption. reflexivity. }
        split; [exact Ht | ].
        split.
        { rewrite Hh. cbn [seq flat_map]. f_equal.
          rewrite <- (seq_shift (List.length (received rest false)) 1).
          rewrite (flat_map_concat_map _ (map S _)), map_map, <- flat_map_concat_map.
          apply flat_map_ext. intros k.
          rewrite to_uint64_add_l. do 2 f_equal. lia. }
        { rewrite Hm. cbn [seq map Nat.iter nat_rect]. f_equal.
          rewrite <- (seq_shift (List.length (received rest false)) 0), map_map.
          apply map_ext. intros k. rewrite Nat.iter_succ_r. reflexivity. }
    + cbn [effect] in *. cbn [received transmitted keyed].
      destruct (tx ctx) eqn:Htx; cbn [fst snd] in *.
      * destruct Hcb as [[Hlen0 _] _].
        assert (Hhalf : 0 <= len / 2) by (apply Z.div_pos; lia).
        specialize (IH _ Hinv1 Hrest).
        cbn [tx rx_phase tx_phase snr byte_data_counter] in IH.
        destruct IH as (Hs & Ht & Hh & Hm).
        cbn [speaker_samples transmitter_samples heartbeats meter_values app].
        rewrite !app_nil_r.
        cbn [List.length total_pairs fold_right].
        fold (total_pairs (transmitted rest true)).
        split; [exact Hs | ].
        split; [ | split; assumption].
        rewrite Ht, tone_app by assumption.
        rewrite Z2Nat.id by assumption. reflexivity.
      * specialize (IH ctx Hinv1 Hrest). rewrite Htx in IH. exact IH.
    + cbn [effect] in *.
      rewrite received_state_change, transmitted_state_change.
      destruct (state_test_fields ctx st) as (Er & Et & Es & En & Ef).
      destruct (state_test_events ctx st) as (-> & -> & -> & -> & _).
      specialize (IH _ Hinv1 Hrest).
      rewrite Er, Et, Es, En, Ef in IH. exact IH.
Qed.

(** ** The transmit path *)

(** X1.  With the transmit flag set, an even sample count and the transmit
    phase [p] in range, [packet_tx] makes one library call: it sends, on the
    transmitter stream, a block of exactly [len] samples whose [k]-th stereo
    pair carries [sin_table[(p + k) mod 24] * 0.5F] on both channels.  It
    leaves the transmit phase at [(p + len / 2) mod 24] and touches no other
    field; no meter and no byte data go out on this path. *)
Theorem packet_tx_sends_the_tone (ctx : junk_context) (len : Z) :
  tx ctx = true -> 0 <= tx_phase ctx < 24 -> even_length len ->
  exists samples,
    packet_tx ctx len =
      Ok (set_tx_phase ((tx_phase ctx + len / 2) mod 24) ctx,
          [waveform_send_data_packet samples len TRANSMITTER_DATA]) /\
    Z.of_nat (List.length samples) = len /\
    forall k, Z.of_nat k < len / 2 ->
      left_sample samples k =
        F32.mul (nth (Z.to_nat ((tx_phase ctx + Z.of_nat k) mod 24)) sin_table F32.zero)
                F32.half /\
      right_sample samples k = left_sample samples k.
Proof.
  intros Htx Hp Hlen.
  pose proof (fill_samples_even_length len (tx_phase ctx) Hlen Hp) as Hloop.
  exists (tone (tx_phase ctx) (Z.to_nat (len / 2))).
  rewrite (packet_tx_transmitting ctx len _ Htx Hloop). cbn [fst snd].
  destruct Hlen as [[Hlen0 _] Heven].
  assert (Hhalf : 0 <= len / 2) by (apply Z.div_pos; lia).
  split; [ | split].
  - unfold set_tx_phase. rewrite Htx. reflexivity.
  - rewrite tone_length. apply Z.even_spec in Heven. destruct Heven as [m ->].
    rewrite Z.mul_comm, Z.div_mul by lia. lia.
  - intros k Hk.
    destruct (tone_pair (Z.to_nat (len / 2)) (tx_phase ctx) k Hp ltac:(lia))
      as [Hl Hr].
    rewrite Hr, Hl. split; reflexivity.
Qed.

Lemma packet_tx_sends_the_tone_witness :
  exists samples,
    packet_tx (mk_context 3 22 true 7 40) 6 =
      Ok (set_tx_phase ((22 + 6 / 2) mod 24) (mk_context 3 22 true 7 40),
          [waveform_send_data_packet samples 6 TRANSMITTER_DATA]) /\
    Z.of_nat (List.length samples) = 6 /\
    forall k, Z.of_nat k < 6 / 2 ->
      left_sample samples k =
        F32.mul (nth (Z.to_nat ((22 + Z.of_nat k) mod 24)) sin_table F32.zero)
                F32.half /\
      right_sample samples k = left_sample samples k.
Proof.
  apply (packet_tx_sends_the_tone (mk_context 3 22 true 7 40) 6).
  - reflexivity.
  - simpl; lia.
  - unfold even_length, sample_count; split; [lia | reflexivity].
Defined.

(** ** Interleaved callbacks *)

(** X2.  From a context with both phases in range, any sequence of receiver
    packets, transmitter packets and state changes in which every packet has
    an even sample count runs to its end: no callback leaves the bounds of
    the buffer or of the table, and the phases are in range afterwards. *)
Theorem even_packets_never_fault (cbs : list callback) (ctx : junk_context) :
  phase_invariant ctx -> Forall even_packet cbs ->
  exists ctx' evs, run cbs ctx = Ok (ctx', evs) /\ phase_invariant ctx'.
Proof.
  intros Hinv Hcbs.
  exists (fst (effects cbs ctx)), (snd (effects cbs ctx)).
  rewrite <- surjective_pairing.
  pose proof (run_effects cbs ctx Hinv Hcbs) as Hrun.
  split; [exact Hrun | ].
  apply (run_phase_invariant cbs ctx _ (snd (effects cbs ctx)) Hinv).
  rewrite <- surjective_pairing. exact Hrun.
Qed.

Lemma even_packets_never_fault_witness :
  exists ctx' evs,
    run [rx_data 4; state_change PTT_REQUESTED; rx_data 2; tx_data 6;
         state_change (other_state 9); state_change UNKEY_REQUESTED; rx_data 8]
        initial_context = Ok (ctx', evs) /\
    phase_invariant ctx'.
Proof.
  apply even_packets_never_fault.
  - unfold phase_invariant; simpl; lia.
  - repeat constructor; unfold sample_count; lia.
Defined.

Lemma dispatch_flag (ctx ctx' : junk_context) (cb : callback) (evs : list event) :
  dispatch ctx cb = Ok (ctx', evs) -> tx ctx' = keyed [cb] (tx ctx).
Proof.
  intros H. destruct cb as [len | len | st]; cbn [dispatch] in H.
  - cbn [keyed]. destruct (tx ctx) eqn:Htx.
    + rewrite packet_rx_while_transmitting in H by assumption.
      inversion H; subst. assumption.
    + destruct (fill_samples len 0 (repeat F32.zero (Z.to_nat len), rx_phase ctx))
        as [st | f] eqn:E.
      * rewrite (packet_rx_receiving _ _ _ Htx E) in H. inversion H; reflexivity.
      * rewrite (packet_rx_undefined _ _ _ Htx E) in H. discriminate.
  - cbn [keyed]. destruct (tx ctx) eqn:Htx.
    + destruct (fill_samples len 0 (repeat F32.zero (Z.to_nat len), tx_phase ctx))
        as [st | f] eqn:E.
      * rewrite (packet_tx_transmitting _ _ _ Htx E) in H. inversion H; reflexivity.
      * rewrite (packet_tx_undefined _ _ _ Htx E) in H. discriminate.
    + rewrite packet_tx_while_receiving in H by assumption.
      inversion H; subst. assumption.
  - inversion H as [H'].
    destruct (state_test_fields ctx st) as (_ & _ & _ & _ & Hf).
    rewrite H' in Hf. exact Hf.
Qed.

(** X3.  After any sequence of callbacks that runs to its end, the transmit
    flag is the one the last [PTT_REQUESTED] or [UNKEY_REQUESTED] among them
    asked for, and the flag the run started with when there is none: no data
    packet and no other state ([ACTIVE], [INACTIVE], unknown) changes it, and
    a repeated request changes nothing. *)
Theorem flag_follows_last_request (cbs : list callback) :
  forall ctx ctx' evs,
    run cbs ctx = Ok (ctx', evs) -> tx ctx' = keyed cbs (tx ctx).
Proof.
  induction cbs as [ | cb rest IH]; intros ctx ctx' evs H; cbn [run] in H.
  - inversion H; reflexivity.
  - destruct (dispatch ctx cb) as [[ctx1 evs1] | ] eqn:E1; cbn [bind fst snd] in H;
      [ | discriminate].
    destruct (run rest ctx1) as [[ctx2 evs2] | ] eqn:E2; cbn [bind fst snd] in H;
      [ | discriminate].
    inversion H; subst.
    rewrite keyed_cons, <- (dispatch_flag _ _ _ _ E1).
    eapply IH. exact E2.
Qed.

Lemma flag_follows_last_request_witness :
  tx (mk_context 1 3 true 1 1) =
  keyed [rx_data 2; state_change PTT_REQUESTED; state_change PTT_REQUESTED;
         state_change INACTIVE; tx_data 6]
        (tx initial_context).
Proof.
  eapply flag_follows_last_request. vm_compute. reflexivity.
Defined.

(** X4.  Phase continuity of the receive path.  Whatever transmitter
    packets and state changes come in between, the blocks sent to the speaker
    during a run form one unbroken tone: with [p] the receive phase at the
    start, the [k]-th stereo pair of the whole stream carries
    [sin_table[(p + k) mod 24] * 0.5F] on both channels.  The stream holds one
    pair for every two samples of the receiver packets that arrived while the
    flag was clear, and the receive phase ends at [p] plus that number of
    pairs, modulo 24. *)
Theorem speaker_stream_is_continuous (cbs : list callback) (ctx : junk_context) :
  phase_invariant ctx -> Forall even_packet cbs ->
  exists ctx' evs,
    run cbs ctx = Ok (ctx', evs) /\
    List.length (speaker_samples evs) =
      (2 * total_pairs (received cbs (tx ctx)))%nat /\
    rx_phase ctx' =
      (rx_phase ctx + Z.of_nat (total_pairs (received cbs (tx ctx)))) mod 24 /\
    forall k, (k < total_pairs (received cbs (tx ctx)))%nat ->
      left_sample (speaker_samples evs) k =
        F32.mul (nth (Z.to_nat ((rx_phase ctx + Z.of_nat k) mod 24)) sin_table F32.zero)
                F32.half /\
      right_sample (speaker_samples evs) k = left_sample (speaker_samples evs) k.
Proof.
  intros Hinv Hcbs.
  exists (fst (effects cbs ctx)), (snd (effects cbs ctx)).
  rewrite <- surjective_pairing.
  split; [apply run_effects; assumption | ].
  destruct (effects_events cbs ctx Hinv Hcbs) as (Hs & _).
  destruct (effects_fields cbs ctx Hinv Hcbs) as (_ & Hr & _).
  rewrite Hs. split; [apply tone_length | ]. split; [exact Hr | ].
  intros k Hk.
  destruct (tone_pair _ (rx_phase ctx) k (proj1 Hinv) Hk) as [Hl Hr'].
  rewrite Hr', Hl. split; reflexivity.
Qed.

Lemma speaker_stream_is_continuous_witness :
  exists ctx' evs,
    run [rx_data 4; state_change PTT_REQUESTED; rx_data 2; tx_data 6;
         state_change UNKEY_REQUESTED; rx_data 50]
        (mk_context 23 7 false 0 0) = Ok (ctx', evs) /\
    List.length (speaker_samples evs) = (2 * 27)%nat /\
    rx_phase ctx' = (23 + Z.of_nat 27) mod 24 /\
    forall k, (k < 27)%nat ->
      left_sample (speaker_samples evs) k =
        F32.mul (nth (Z.to_nat ((23 + Z.of_nat k) mod 24)) sin_table F32.zero)
                F32.half /\
      right_sample (speaker_samples evs) k = left_sample (speaker_samples evs) k.
Proof.
  apply (speaker_stream_is_continuous
           [rx_data 4; state_change PTT_REQUESTED; rx_data 2; tx_data 6;
            state_change UNKEY_REQUESTED; rx_data 50]
           (mk_context 23 7 false 0 0)).
  - unfold phase_invariant; simpl; lia.
  - repeat constructor; unfold sample_count; lia.
Defined.

(** X5.  Phase continuity of the transmit path.  The blocks sent to the
    transmitter during a run form one unbroken tone from the transmit phase
    [p] at the start, whatever receiver packets and state changes come in
    between, also across an unkey and a later key: the [k]-th stereo pair of
    the stream carries [sin_table[(p + k) mod 24] * 0.5F] on both channels,
    and the transmit phase ends at [p] plus the number of pairs, modulo
    24. *)
Theorem transmitter_stream_is_continuous (cbs : list callback) (ctx : junk_context) :
  phase_invariant ctx -> Forall even_packet cbs ->
  exists ctx' evs,
    run cbs ctx = Ok (ctx', evs) /\
    List.length (transmitter_samples evs) =
      (2 * total_pairs (transmitted cbs (tx ctx)))%nat /\
    tx_phase ctx' =
      (tx_phase ctx + Z.of_nat (total_pairs (transmitted cbs (tx ctx)))) mod 24 /\
    forall k, (k < total_pairs (transmitted cbs (tx ctx)))%nat ->
      left_sample (transmitter_samples evs) k =
        F32.mul (nth (Z.to_nat ((tx_phase ctx + Z.of_nat k) mod 24)) sin_table F32.zero)
                F32.half /\
      right_sample (transmitter_samples evs) k =
        left_sample (transmitter_samples evs) k.
Proof.
  intros Hinv Hcbs.
  exists (fst (effects cbs ctx)), (snd (effects cbs ctx)).
  rewrite <- surjective_pairing.
  split; [apply run_effects; assumption | ].
  destruct (effects_events cbs ctx Hinv Hcbs) as (_ & Ht & _).
  destruct (effects_fields cbs ctx Hinv Hcbs) as (_ & _ & Hp & _).
  rewrite Ht. split; [apply tone_length | ]. split; [exact Hp | ].
  intros k Hk.
  destruct (tone_pair _ (tx_phase ctx) k (proj2 Hinv) Hk) as [Hl Hr'].
  rewrite Hr', Hl. split; reflexivity.
Qed.

Lemma transmitter_stream_is_continuous_witness :
  exists ctx' evs,
    run [state_change PTT_REQUESTED; tx_data 6; rx_data 2;
         state_change UNKEY_REQUESTED; tx_data 8; rx_data 4;
         state_change PTT_REQUESTED; tx_data 40]
        (mk_context 0 20 false 0 0) = Ok (ctx', evs) /\
    List.length (transmitter_samples evs) = (2 * 23)%nat /\
    tx_phase ctx' = (20 + Z.of_nat 23) mod 24 /\
    forall k, (k < 23)%nat ->
      left_sample (transmitter_samples evs) k =
        F32.mul (nth (Z.to_nat ((20 + Z.of_nat k) mod 24)) sin_table F32.zero)
                F32.half /\
      right_sample (transmitter_samples evs) k =
        left_sample (transmitter_samples evs) k.
Proof.
  apply (transmitter_stream_is_continuous
           [state_change PTT_REQUESTED; tx_data 6; rx_data 2;
            state_change UNKEY_REQUESTED; tx_data 8; rx_data 4;
            state_change PTT_REQUESTED; tx_data 40]
           (mk_context 0 20 false 0 0)).
  - unfold phase_invariant; simpl; lia.
  - repeat constructor; unfold sample_count; lia.
Defined.

(** ** One path at a time *)











Lemma update_length {A : Type} (l : list A) (n : nat) (v : A) :
  List.length (update l n v) = List.length l.
Proof.
  revert n; induction l as [ | y l IH]; intros [ | n]; simpl; auto.
Qed.

Lemma fill_pair_length (i : Z) (st st' : list F32.t * Z) :
  fill_pair i st = Ok st' -> List.length (fst st') = List.length (fst st).
Proof.
  destruct st as [samples phase]. unfold fill_pair, store.
  destruct (load_sin_table phase) as [s | ]; cbn [bind]; [ | discriminate].
  destruct ((0 <=? i + 1) && (i + 1 <? Z.of_nat (List.length samples)));
    cbn [bind]; [ | discriminate].
  rewrite update_length.
  destruct ((0 <=? i) && (i <? Z.of_nat (List.length samples)));
    cbn [bind]; [ | discriminate].
  intros H; inversion H; subst. cbn [fst]. rewrite !update_length. reflexivity.
Qed.

Lemma fill_samples_length (fuel : nat) :
  forall (len i : Z) (st st' : list F32.t * Z),
    (Z.to_nat (len - i) <= fuel)%nat ->
    fill_samples len i st = Ok st' ->
    List.length (fst st') = List.length (fst st).
Proof.
  induction fuel as [ | fuel IH]; intros len i st st' Hm;
    rewrite fill_samples_step; destruct (Z.ltb_spec i len) as [Hlt | Hge];
    try lia; try (intros H; inversion H; subst; reflexivity).
  destruct (fill_pair i st) as [st1 | ] eqn:E; cbn [bind]; [ | discriminate].
  intros H. apply IH in H; [ | lia].
  rewrite H. eapply fill_pair_length. exact E.
Qed.

(** X8.  A callback sends at most one block of samples, and on the stream
    the flag selects when the callback starts: a block for the speaker comes
    from a receiver packet with the flag clear, a block for the transmitter
    from a transmitter packet with the flag set, and a state change sends
    none.  The block has as many samples as the packet that caused it, and
    that count is the one passed along with it. *)
Theorem one_stream_per_callback (ctx ctx' : junk_context) (cb : callback)
        (evs : list event) :
  dispatch ctx cb = Ok (ctx', evs) ->
  data_packets evs = [] \/
  (exists len samples,
      cb = rx_data len /\ tx ctx = false /\
      data_packets evs = [waveform_send_data_packet samples len SPEAKER_DATA] /\
      List.length samples = Z.to_nat len) \/
  (exists len samples,
      cb = tx_data len /\ tx ctx = true /\
      data_packets evs = [waveform_send_data_packet samples len TRANSMITTER_DATA] /\
      List.length samples = Z.to_nat len).
Proof.
  intros H. destruct cb as [len | len | st]; cbn [dispatch] in H.
  - destruct (tx ctx) eqn:Htx.
    + rewrite packet_rx_while_transmitting in H by assumption.
      inversion H; subst. left. reflexivity.
    + destruct (fill_samples len 0 (repeat F32.zero (Z.to_nat len), rx_phase ctx))
        as [st | f] eqn:E.
      * rewrite (packet_rx_receiving _ _ _ Htx E) in H. inversion H; subst.
        right. left. exists len, (fst st).
        split; [reflexivity | ]. split; [reflexivity | ].
        cbn [app data_packets].
        destruct (heartbeat_is_byte_data (to_uint64 (byte_data_counter ctx + 1)))
          as (_ & _ & -> & _).
        split; [reflexivity | ].
        rewrite (fill_samples_length _ _ _ _ _ (Nat.le_refl _) E).
        apply repeat_length.
      * rewrite (packet_rx_undefined _ _ _ Htx E) in H. discriminate.
  - destruct (tx ctx) eqn:Htx.
    + destruct (fill_samples len 0 (repeat F32.zero (Z.to_nat len), tx_phase ctx))
        as [st | f] eqn:E.
      * rewrite (packet_tx_transmitting _ _ _ Htx E) in H. inversion H; subst.
        right. right. exists len, (fst st).
        split; [reflexivity | ]. split; [reflexivity | ].
        split; [reflexivity | ].
        rewrite (fill_samples_length _ _ _ _ _ (Nat.le_refl _) E).
        apply repeat_length.
      * rewrite (packet_tx_undefined _ _ _ Htx E) in H. discriminate.
    + rewrite packet_tx_while_receiving in H by assumption.
      inversion H; subst. left. reflexivity.
  - inversion H as [H']. left.
    destruct (state_test_events ctx st) as (_ & _ & _ & _ & Hd).
    rewrite H' in Hd. exact Hd.
Qed.

Lemma one_stream_per_callback_witness :
  data_packets
    [waveform_send_data_packet (tone 23 2) 4 TRANSMITTER_DATA] = [] \/
  (exists len samples,
      tx_data 4 = rx_data len /\ tx (mk_context 5 23 true 0 0) = false /\
      data_packets [waveform_send_data_packet (tone 23 2) 4 TRANSMITTER_DATA] =
        [waveform_send_data_packet samples len SPEAKER_DATA] /\
      List.length samples = Z.to_nat len) \/
  (exists len samples,
      tx_data 4 = tx_data len /\ tx (mk_context 5 23 true 0 0) = true /\
      data_packets [waveform_send_data_packet (tone 23 2) 4 TRANSMITTER_DATA] =
        [waveform_send_data_packet samples len TRANSMITTER_DATA] /\
      List.length samples = Z.to_nat len).
Proof.
  apply (one_stream_per_callback (mk_context 5 23 true 0 0)
           (mk_context 5 1 true 0 0) (tx_data 4)).
  vm_compute. reflexivity.
Defined.

(** ** Telemetry *)

Lemma heartbeats_up_to (n : nat) :
  flat_map (fun k => heartbeat (Z.of_nat k)) (seq 1 n) =
  flat_map (fun j => heartbeat (100 * Z.of_nat j)) (seq 1 (n / 100)) /\
  forall j, heartbeat (100 * Z.of_nat j) <> [].
Proof.
  assert (Hfire : forall j, heartbeat (100 * Z.of_nat j) <> []).
  { intros j. apply heartbeat_fires. rewrite Z.mul_comm. apply Z.mod_mul. lia. }
  split; [ | exact Hfire].
  induction n as [ | n IH]; [reflexivity | ].
  rewrite seq_S, flat_map_app, IH. cbn [flat_map]. rewrite app_nil_r.
  change (1 + n)%nat with (S n).
  destruct (Z.eq_dec (Z.of_nat (S n) mod 100) 0) as [Hz | Hnz].
  - assert (Hq : (S n / 100 = S (n / 100))%nat).
    { apply Nat2Z.inj. rewrite Nat2Z.inj_succ, !Nat2Z.inj_div.
      change (Z.of_nat 100) with 100.
      Z.to_euclidean_division_equations. lia. }
    rewrite Hq, seq_S, flat_map_app. cbn [flat_map]. rewrite app_nil_r.
    do 2 f_equal. change (1 + n / 100)%nat with (S (n / 100)). rewrite <- Hq.
    rewrite Nat2Z.inj_div. change (Z.of_nat 100) with 100.
    Z.to_euclidean_division_equations. lia.
  - assert (Hq : (S n / 100 = n / 100)%nat).
    { apply Nat2Z.inj. rewrite !Nat2Z.inj_div.
      change (Z.of_nat 100) with 100.
      Z.to_euclidean_division_equations. lia. }
    rewrite Hq. unfold heartbeat at 2.
    destruct (Z.eqb_spec (Z.of_nat (S n) mod 100) 0); [contradiction | ].
    apply app_nil_r.
Qed.

(** X9.  From the zeroed context, [n] processed receiver packets, [n] below
    [2 ^ 64], send [n / 100] heartbeats, rounded down: one for each full
    hundred reached by the counter, in order, the [j]-th carrying the count
    [100 * j].  The counter ends at [n]. *)
Theorem one_heartbeat_per_hundred (lens : list Z) :
  Forall even_length lens ->
  Z.of_nat (List.length lens) < 2 ^ 64 ->
  exists ctx' evs,
    run (map rx_data lens) initial_context = Ok (ctx', evs) /\
    byte_data_counter ctx' = Z.of_nat (List.length lens) /\
    List.length (heartbeats evs) = (List.length lens / 100)%nat /\
    heartbeats evs =
      map (fun j =>
             waveform_send_byte_data_packet
               (heartbeat_message (100 * Z.of_nat j))
               (Z.of_nat (String.length (callback_counter_text (100 * Z.of_nat j))) + 1))
          (seq 1 (List.length lens / 100)).
Proof.
  intros Hlens Hn.
  destruct (receive_run lens initial_context) as
    (ctx' & evs & Hrun & _ & _ & _ & _ & Hcnt & _ & Hhb);
    [reflexivity | simpl; lia | simpl; lia | assumption | ].
  cbn [byte_data_counter initial_context] in Hcnt, Hhb.
  exists ctx', evs. split; [exact Hrun | ].
  split; [rewrite Hcnt, Z.add_0_l; apply to_uint64_small; lia | ].
  assert (Hmap : heartbeats evs =
                 map (fun j =>
                        waveform_send_byte_data_packet
                          (heartbeat_message (100 * Z.of_nat j))
                          (Z.of_nat (String.length
                             (callback_counter_text (100 * Z.of_nat j))) + 1))
                     (seq 1 (List.length lens / 100))).
  { rewrite Hhb.
    rewrite flat_map_concat_map.
    rewrite (map_ext_in _ (fun k => heartbeat (Z.of_nat k))).
    - rewrite <- flat_map_concat_map.
      rewrite (proj1 (heartbeats_up_to (List.length lens))).
      rewrite flat_map_concat_map.
      rewrite (map_ext _ (fun j =>
                 [waveform_send_byte_data_packet
                    (heartbeat_message (100 * Z.of_nat j))
                    (Z.of_nat (String.length
                       (callback_counter_text (100 * Z.of_nat j))) + 1)])).
      + rewrite <- flat_map_concat_map.
        induction (seq 1 (List.length lens / 100)) as [ | j l IH];
          [reflexivity | cbn [flat_map map app]; rewrite IH; reflexivity].
      + intros j. unfold heartbeat.
        replace (100 * Z.of_nat j mod 100) with 0
          by (rewrite Z.mul_comm, Z.mod_mul; lia).
        reflexivity.
    - intros k Hk. apply in_seq in Hk.
      rewrite Z.add_0_l, to_uint64_small by lia. reflexivity. }
  split; [rewrite Hmap, length_map, length_seq; reflexivity | exact Hmap].
Qed.

Lemma one_heartbeat_per_hundred_witness :
  exists ctx' evs,
    run (map rx_data (repeat 2 205)) initial_context = Ok (ctx', evs) /\
    byte_data_counter ctx' = Z.of_nat (List.length (repeat 2 205)) /\
    List.length (heartbeats evs) = (List.length (repeat 2 205) / 100)%nat /\
    heartbeats evs =
      map (fun j =>
             waveform_send_byte_data_packet
               (heartbeat_message (100 * Z.of_nat j))
               (Z.of_nat (String.length (callback_counter_text (100 * Z.of_nat j))) + 1))
          (seq 1 (List.length (repeat 2 205) / 100)).
Proof.
  apply (one_heartbeat_per_hundred (repeat 2 205)).
  - apply Forall_forall. intros x Hx. apply repeat_spec in Hx. subst x.
    split; [unfold sample_count; lia | reflexivity].
  - rewrite repeat_length. simpl. lia.
Defined.

Lemma snr_converts_into_meter_range (s : Z) :
  -100 <= s <= 100 ->
  registered_meter "junk-snr" (F32.of_int s) /\
  Qeq (F32.to_Q (F32.of_int s)) (inject_Z s).
Proof.
  intros Hs.
  assert (Hall : forallb
            (fun k =>
               let v := F32.of_int (Z.of_nat k - 100) in
               SFleb (F32.of_Q (-100.0)%Q) v && SFleb v (F32.of_Q 100.0%Q)
               && Qeq_bool (F32.to_Q v) (inject_Z (Z.of_nat k - 100)))
            (seq 0 201) = true) by (vm_compute; reflexivity).
  rewrite forallb_forall in Hall.
  specialize (Hall (Z.to_nat (s + 100))).
  replace (Z.of_nat (Z.to_nat (s + 100)) - 100) with s in Hall by lia.
  cbv zeta in Hall.
  assert (Hin : In (Z.to_nat (s + 100)) (seq 0 201)) by (apply in_seq; lia).
  apply Hall in Hin. apply andb_prop in Hin. destruct Hin as [H12 H3].
  apply andb_prop in H12. destruct H12 as [H1 H2].
  split.
  - eexists. split; [left; reflexivity | ]. repeat split; assumption.
  - apply Qeq_bool_eq. exact H3.
Qed.

Lemma dispatch_meter (ctx ctx' : junk_context) (cb : callback) (evs : list event) :
  snr_in_range ctx -> dispatch ctx cb = Ok (ctx', evs) ->
  snr_in_range ctx' /\
  Forall (fun nv => fst nv = "junk-snr"%string /\ registered_meter (fst nv) (snd nv))
         (meter_values evs).
Proof.
  intros Hs H. destruct cb as [len | len | st]; cbn [dispatch] in H.
  - destruct (tx ctx) eqn:Htx.
    + rewrite packet_rx_while_transmitting in H by assumption.
      inversion H; subst. split; [assumption | constructor].
    + destruct (fill_samples len 0 (repeat F32.zero (Z.to_nat len), rx_phase ctx))
        as [st | f] eqn:E.
      * rewrite (packet_rx_receiving _ _ _ Htx E) in H. inversion H; subst.
        split.
        { unfold snr_in_range. cbn [snr]. apply next_snr_in_range. exact Hs. }
        cbn [app meter_values].
        destruct (heartbeat_is_byte_data (to_uint64 (byte_data_counter ctx + 1)))
          as (_ & -> & _).
        constructor; [ | constructor].
        split; [reflexivity | ].
        apply snr_converts_into_meter_range. exact Hs.
      * rewrite (packet_rx_undefined _ _ _ Htx E) in H. discriminate.
  - destruct (tx ctx) eqn:Htx.
    + destruct (fill_samples len 0 (repeat F32.zero (Z.to_nat len), tx_phase ctx))
        as [st | f] eqn:E.
      * rewrite (packet_tx_transmitting _ _ _ Htx E) in H. inversion H; subst.
        split; [exact Hs | constructor].
      * rewrite (packet_tx_undefined _ _ _ Htx E) in H. discriminate.
    + rewrite packet_tx_while_receiving in H by assumption.
      inversion H; subst. split; [assumption | constructor].
  - inversion H as [H'].
    destruct (state_test_fields ctx st) as (_ & _ & Es & _).
    destruct (state_test_events ctx st) as (_ & _ & _ & Em & _).
    rewrite H' in Es, Em. cbn [fst snd] in Es, Em.
    split; [unfold snr_in_range; rewrite Es; exact Hs | rewrite Em; constructor].
Qed.

(** X10.  Every meter update is one the radio was told to expect.  On a
    context whose [snr] is within [[-100, 100]], as it is in the zeroed one,
    any sequence of callbacks that runs to its end leaves [snr] within
    [[-100, 100]], and each [waveform_meter_set_float_value] it makes names
    the meter "junk-snr" of the table [meters] with a value between that
    entry's minimum and maximum. *)
Theorem meter_updates_are_registered (cbs : list callback) :
  forall ctx ctx' evs,
    snr_in_range ctx -> run cbs ctx = Ok (ctx', evs) ->
    snr_in_range ctx' /\
    Forall (fun nv => fst nv = "junk-snr"%string /\ registered_meter (fst nv) (snd nv))
           (meter_values evs).
Proof.
  induction cbs as [ | cb rest IH]; intros ctx ctx' evs Hs H; cbn [run] in H.
  - inversion H; subst. split; [assumption | constructor].
  - destruct (dispatch ctx cb) as [[ctx1 evs1] | ] eqn:E1; cbn [bind fst snd] in H;
      [ | discriminate].
    destruct (run rest ctx1) as [[ctx2 evs2] | ] eqn:E2; cbn [bind fst snd] in H;
      [ | discriminate].
    inversion H; subst.
    destruct (dispatch_meter _ _ _ _ Hs E1) as [Hs1 Hm1].
    destruct (IH _ _ _ Hs1 E2) as [Hs2 Hm2].
    split; [exact Hs2 | ].
    rewrite meter_values_app. apply Forall_app. split; assumption.
Qed.

Lemma meter_updates_are_registered_witness :
  snr_in_range (mk_context 6 0 true 3 3) /\
  Forall (fun nv => fst nv = "junk-snr"%string /\ registered_meter (fst nv) (snd nv))
         (meter_values
            [ waveform_send_data_packet (tone 0 1) 2 SPEAKER_DATA;
              waveform_meter_set_float_value "junk-snr" (F32.of_int 0);
              waveform_meters_send;
              waveform_send_data_packet (tone 1 2) 4 SPEAKER_DATA;
              waveform_meter_set_float_value "junk-snr" (F32.of_int 1);
              waveform_meters_send;
              waveform_send_data_packet (tone 3 3) 6 SPEAKER_DATA;
              waveform_meter_set_float_value "junk-snr" (F32.of_int 2);
              waveform_meters_send;
              fprintf_stderr ("ptt requested" ++ newline) ]).
Proof.
  apply (meter_updates_are_registered
           [rx_data 2; rx_data 4; rx_data 6; state_change PTT_REQUESTED]
           initial_context).
  - unfold snr_in_range; simpl; lia.
  - vm_compute. reflexivity.
Defined.

Lemma received_receiver_packets (lens : list Z) :
  received (map rx_data lens) false = lens.
Proof.
  induction lens as [ | len rest IH]; [reflexivity | ].
  cbn [map received]. rewrite IH. reflexivity.
Qed.

(** X11.  What the meter shows.  From the zeroed context, the [k]-th
    processed receiver packet, counting from 0, reports the value [snr] had
    before that packet: [sawtooth k], so 0 first, 100 with packet 100 and
    -100 with packet 101.  It is reported as a [float] but nothing is lost:
    the conversion of these values is exact.  One update is made per packet,
    all to "junk-snr". *)
Theorem meter_shows_the_sawtooth (lens : list Z) :
  Forall even_length lens ->
  exists ctx' evs,
    run (map rx_data lens) initial_context = Ok (ctx', evs) /\
    meter_values evs =
      map (fun k => ("junk-snr"%string, F32.of_int (sawtooth k)))
          (seq 0 (List.length lens)) /\
    forall k, Qeq (F32.to_Q (F32.of_int (sawtooth k))) (inject_Z (sawtooth k)).
Proof.
  intros Hlens.
  assert (Hinv : phase_invariant initial_context)
    by (unfold phase_invariant; simpl; lia).
  assert (Hcbs : Forall even_packet (map rx_data lens)).
  { apply Forall_forall. intros cb Hcb. apply in_map_iff in Hcb.
    destruct Hcb as (len & <- & Hin).
    rewrite Forall_forall in Hlens. apply Hlens. exact Hin. }
  exists (fst (effects (map rx_data lens) initial_context)),
         (snd (effects (map rx_data lens) initial_context)).
  rewrite <- surjective_pairing.
  split; [apply run_effects; assumption | ].
  destruct (effects_events _ _ Hinv Hcbs) as (_ & _ & _ & Hm).
  cbn [tx snr initial_context] in Hm.
  rewrite received_receiver_packets in Hm.
  split.
  - rewrite Hm. apply map_ext. intros k. rewrite iter_next_snr. reflexivity.
  - intros k. apply snr_converts_into_meter_range. apply sawtooth_range.
Qed.

Lemma meter_shows_the_sawtooth_witness :
  exists ctx' evs,
    run (map rx_data [2; 8; 6]) initial_context = Ok (ctx', evs) /\
    meter_values evs =
      map (fun k => ("junk-snr"%string, F32.of_int (sawtooth k)))
          (seq 0 (List.length [2; 8; 6])) /\
    forall k, Qeq (F32.to_Q (F32.of_int (sawtooth k))) (inject_Z (sawtooth k)).
Proof.
  apply (meter_shows_the_sawtooth [2; 8; 6]).
  repeat constructor; unfold sample_count; lia.
Defined.

(** ** Edge cases of the sample loop *)

(** X12.  The phases must index the table.  With at least one sample in
    the packet, [packet_rx] on a receive phase outside [[0, 24)] (flag clear)
    and [packet_tx] on a transmit phase outside it (flag set) read
    [sin_table] at that phase, out of its bounds, in the first iteration,
    before any sample is stored. *)
Theorem phase_outside_table_is_read (ctx : junk_context) (len : Z) :
  0 < len ->
  (tx ctx = false -> ~ 0 <= rx_phase ctx < 24 ->
   packet_rx ctx len = Undefined (OOB_read (rx_phase ctx))) /\
  (tx ctx = true -> ~ 0 <= tx_phase ctx < 24 ->
   packet_tx ctx len = Undefined (OOB_read (tx_phase ctx))).
Proof.
  intros Hlen.
  assert (Hloop : forall phase samples,
             ~ 0 <= phase < 24 ->
             fill_samples len 0 (samples, phase) = Undefined (OOB_read phase)).
  { intros phase samples Hp. rewrite fill_samples_step.
    destruct (Z.ltb_spec 0 len); [ | lia].
    unfold fill_pair. rewrite load_sin_table_out_of_range by assumption.
    reflexivity. }
  split; intros Htx Hp.
  - apply packet_rx_undefined; [assumption | apply Hloop; assumption].
  - apply packet_tx_undefined; [assumption | apply Hloop; assumption].
Qed.

Lemma phase_outside_table_is_read_witness :
  packet_rx (mk_context 24 0 false 0 0) 2 = Undefined (OOB_read 24) /\
  packet_tx (mk_context 0 255 true 0 0) 1 = Undefined (OOB_read 255).
Proof.
  split.
  - apply (proj1 (phase_outside_table_is_read (mk_context 24 0 false 0 0) 2
                    ltac:(lia))); [reflexivity | simpl; lia].
  - apply (proj2 (phase_outside_table_is_read (mk_context 0 255 true 0 0) 1
                    ltac:(lia))); [reflexivity | simpl; lia].
Defined.

(** ** More on the text of the heartbeat *)

Lemma list_ascii_of_string_append (a b : string) :
  list_ascii_of_string (a ++ b) =
  (list_ascii_of_string a ++ list_ascii_of_string b)%list.
Proof. induction a as [ | x a IH]; simpl; [ | rewrite IH]; reflexivity. Qed.

Lemma string_append_inv_tail (a b c : string) :
  (a ++ c)%string = (b ++ c)%string -> a = b.
Proof.
  intros H. apply (f_equal list_ascii_of_string) in H.
  rewrite !list_ascii_of_string_append in H. apply app_inv_tail in H.
  apply (f_equal string_of_list_ascii) in H.
  rewrite !string_of_list_ascii_of_string in H. exact H.
Qed.

Lemma to_int_not_nil (z : Z) :
  Z.to_int z <> Decimal.Pos Decimal.Nil /\ Z.to_int z <> Decimal.Neg Decimal.Nil.
Proof.
  pose proof (DecimalZ.to_of (Z.to_int z)) as H.
  rewrite DecimalZ.of_to in H.
  split; intros E; rewrite E in H; discriminate.
Qed.

Lemma decimal_injective (a b : Z) : decimal a = decimal b -> a = b.
Proof.
  unfold decimal. intros H.
  apply (f_equal NilZero.int_of_string) in H.
  destruct (to_int_not_nil a) as [Ha1 Ha2].
  destruct (to_int_not_nil b) as [Hb1 Hb2].
  rewrite !NilZero.isi in H by assumption.
  inversion H as [H']. apply (f_equal Z.of_int) in H'.
  rewrite !DecimalZ.of_to in H'. exact H'.
Qed.

Lemma to_int64_large (x : Z) : 2 ^ 63 <= x < 2 ^ 64 -> to_int64 x = x - 2 ^ 64.
Proof.
  intros H. unfold to_int64, to_signed.
  change (2 ^ (64 - 1)) with (2 ^ 63).
  replace (x + 2 ^ 63) with (x - 2 ^ 63 + 1 * 2 ^ 64) by lia.
  rewrite Z.mod_add by lia. rewrite Z.mod_small; lia.
Qed.

(** X13.  The heartbeat tells the counter.  Two counter values of the
    64-bit range that differ give different messages, so a reader of the byte
    data can tell which count a heartbeat stands for, also past [2 ^ 63]
    where the number is printed negative. *)
Theorem heartbeat_message_identifies_counter (c1 c2 : Z) :
  0 <= c1 < 2 ^ 64 -> 0 <= c2 < 2 ^ 64 -> c1 <> c2 ->
  heartbeat_message c1 <> heartbeat_message c2.
Proof.
  intros H1 H2 Hne H. apply Hne. unfold heartbeat_message in H.
  apply app_inv_tail in H.
  apply (f_equal string_of_list_byte) in H.
  rewrite !string_of_list_byte_of_string in H.
  unfold callback_counter_text in H. cbn [append] in H.
  repeat match type of H with
         | String _ _ = String _ _ => inversion H as [H']; clear H; rename H' into H
         end.
  apply string_append_inv_tail, decimal_injective in H.
  assert (Hv : forall c, 0 <= c < 2 ^ 64 ->
                         (c < 2 ^ 63 /\ to_int64 c = c) \/
                         (2 ^ 63 <= c /\ to_int64 c = c - 2 ^ 64)).
  { intros c Hc. destruct (Z.lt_ge_cases c (2 ^ 63)).
    - left. split; [assumption | apply to_int64_small; lia].
    - right. split; [assumption | apply to_int64_large; lia]. }
  destruct (Hv c1 H1) as [[? E1] | [? E1]], (Hv c2 H2) as [[? E2] | [? E2]];
    rewrite E1, E2 in H; lia.
Qed.

Lemma heartbeat_message_identifies_counter_witness :
  heartbeat_message 100 <> heartbeat_message (2 ^ 64 - 100) /\
  heartbeat_message 100 <> heartbeat_message 1000.
Proof.
  split; apply heartbeat_message_identifies_counter; lia.
Defined.

(** X14.  From [2 ^ 63] on the heartbeat shows a negative number.  [%ld]
    reads the 64-bit counter as a [long]: when a processed receiver packet
    brings the counter to a multiple [n] of 100 with [2 ^ 63 <= n < 2 ^ 64],
    the text sent is "Callback Counter: " followed by the decimal form of
    [n - 2 ^ 64], which starts with a minus sign. *)
Theorem heartbeat_past_long_is_negative (ctx : junk_context) (len : Z) :
  tx ctx = false -> phase_invariant ctx -> even_length len ->
  (byte_data_counter ctx + 1) mod 100 = 0 ->
  2 ^ 63 <= byte_data_counter ctx + 1 < 2 ^ 64 ->
  exists ctx' evs digits,
    packet_rx ctx len = Ok (ctx', evs) /\
    byte_data_counter ctx' = byte_data_counter ctx + 1 /\
    decimal (byte_data_counter ctx' - 2 ^ 64) = String "-" digits /\
    heartbeats evs =
      [ waveform_send_byte_data_packet
          (list_byte_of_string
             ("Callback Counter: " ++ decimal (byte_data_counter ctx' - 2 ^ 64))
           ++ [x0a; x00])
          (Z.of_nat (String.length
             ("Callback Counter: " ++ decimal (byte_data_counter ctx' - 2 ^ 64))) + 2) ].
Proof.
  intros Htx Hinv Hlen Hmod Hc.
  destruct (packet_rx_counts ctx len Htx Hinv Hlen) as (ctx' & evs & Hrx & Hcnt & Hhb);
    [lia | ].
  assert (Hneg : exists digits,
             decimal (byte_data_counter ctx + 1 - 2 ^ 64) = String "-" digits).
  { destruct (byte_data_counter ctx + 1 - 2 ^ 64) as [ | p | p] eqn:E; try lia.
    eexists. reflexivity. }
  destruct Hneg as [digits Hdigits].
  exists ctx', evs, digits. split; [exact Hrx | ]. split; [exact Hcnt | ].
  rewrite Hcnt. split; [exact Hdigits | ].
  rewrite Hhb. unfold heartbeat.
  destruct (Z.eqb_spec ((byte_data_counter ctx + 1) mod 100) 0); [ | contradiction].
  unfold heartbeat_message, callback_counter_text.
  rewrite to_int64_large by assumption.
  rewrite <- string_append_assoc.
  rewrite list_byte_of_string_append, string_length_append, <- app_assoc.
  cbn [newline list_byte_of_string list_ascii_of_string map app String.length].
  do 2 f_equal. lia.
Qed.

Lemma heartbeat_past_long_is_negative_witness :
  exists ctx' evs digits,
    packet_rx (mk_context 0 0 false 0 (2 ^ 63 + 91)) 2 = Ok (ctx', evs) /\
    byte_data_counter ctx' = 2 ^ 63 + 91 + 1 /\
    decimal (byte_data_counter ctx' - 2 ^ 64) = String "-" digits /\
    heartbeats evs =
      [ waveform_send_byte_data_packet
          (list_byte_of_string
             ("Callback Counter: " ++ decimal (byte_data_counter ctx' - 2 ^ 64))
           ++ [x0a; x00])
          (Z.of_nat (String.length
             ("Callback Counter: " ++ decimal (byte_data_counter ctx' - 2 ^ 64))) + 2) ].
Proof.
  apply (heartbeat_past_long_is_negative (mk_context 0 0 false 0 (2 ^ 63 + 91)) 2).
  - reflexivity.
  - unfold phase_invariant; simpl; lia.
  - unfold even_length, sample_count; split; [lia | reflexivity].
  - reflexivity.
  - simpl; lia.
Defined.

(** ** The callbacks that only log *)

Lemma print_args_step (argc : Z) (argv : list string) (i : Z) (out : list event) :
  print_args argc argv i out =
  if i <? argc then
    match print_arg argv i with
    | Some line => print_args argc argv (i + 1) (out ++ [line])
    | None => None
    end
  else Some out.
Proof.
  simp print_args.
  destruct (Z_lt_dec i argc) as [Hlt | Hge]; simpl;
    destruct (Z.ltb_spec i argc); try lia; [ | reflexivity ].
  destruct (print_arg argv i); reflexivity.
Qed.

(** The loop, [k] arguments from the end of [done] on. *)
Lemma print_args_from (k : nat) :
  forall (done rest : list string) (out : list event),
    print_args (Z.of_nat (List.length done) + Z.of_nat k) (done ++ rest)
               (Z.of_nat (List.length done)) out =
    if (k <=? List.length rest)%nat
    then Some (out ++ arg_lines (Z.of_nat (List.length done)) (firstn k rest))%list
    else None.
Proof.
  induction k as [ | k IH]; intros done rest out; rewrite print_args_step.
  - destruct (Z.ltb_spec (Z.of_nat (List.length done))
                (Z.of_nat (List.length done) + Z.of_nat 0)); [lia | ].
    cbn [Nat.leb firstn arg_lines]. rewrite app_nil_r. reflexivity.
  - destruct (Z.ltb_spec (Z.of_nat (List.length done))
                (Z.of_nat (List.length done) + Z.of_nat (S k))); [ | lia].
    unfold print_arg. rewrite Nat2Z.id, nth_error_app2, Nat.sub_diag by lia.
    destruct rest as [ | arg rest]; [reflexivity | ].
    cbn [nth_error List.length Nat.leb firstn arg_lines].
    specialize (IH (done ++ [arg])%list rest
                  (out ++ [fprintf_stderr
                             ("ARG #" ++ decimal (Z.of_nat (List.length done))
                              ++ ": " ++ arg ++ newline)])%list).
    rewrite length_app in IH. cbn [List.length] in IH.
    rewrite <- app_assoc in IH. cbn [app] in IH.
    replace (Z.of_nat (List.length done) + Z.of_nat (S k))
      with (Z.of_nat (List.length done + 1) + Z.of_nat k) by lia.
    replace (Z.of_nat (List.length done) + 1)
      with (Z.of_nat (List.length done + 1)) by lia.
    rewrite IH. destruct (k <=? List.length rest)%nat; [ | reflexivity].
    rewrite <- app_assoc. cbn [app].
    replace (Z.of_nat (List.length done + 1))
      with (Z.of_nat (List.length done) + 1) by lia.
    reflexivity.
Qed.

(** X15.  [test_command] writes one line per argument, "ARG #i: " and the
    argument, numbered from 0 in the order given, and returns 0; with no
    argument it writes nothing.  It looks at the first [argc] entries of
    [argv] only; when [argc] exceeds the number of entries it reads past the
    end of the array. *)
Theorem test_command_lists_its_arguments (argc : Z) (argv : list string) :
  0 <= argc < 2 ^ 31 ->
  test_command argc argv =
  if argc <=? Z.of_nat (List.length argv)
  then Some (0, arg_lines 0 (firstn (Z.to_nat argc) argv))
  else None.
Proof.
  intros Hargc. unfold test_command.
  pose proof (print_args_from (Z.to_nat argc) [] argv []) as H.
  cbn [List.length app] in H. rewrite Z2Nat.id in H by lia.
  rewrite Z.add_0_l in H. change (Z.of_nat 0) with 0 in H. rewrite H.
  destruct (Z.leb_spec argc (Z.of_nat (List.length argv)));
    destruct (Nat.leb_spec (Z.to_nat argc) (List.length argv)); try lia;
    reflexivity.
Qed.

Lemma test_command_lists_its_arguments_witness :
  test_command 2 ["set"; "foo=bar"; "x"]%string =
  if 2 <=? Z.of_nat (List.length ["set"; "foo=bar"; "x"]%string)
  then Some (0, arg_lines 0 (firstn (Z.to_nat 2) ["set"; "foo=bar"; "x"]%string))
  else None.
Proof.
  apply (test_command_lists_its_arguments 2 ["set"; "foo=bar"; "x"]%string). lia.
Defined.

(** X16.  [echo_command] writes two lines, the name of the status (the
    first argument) and the number of arguments, and then exactly the lines
    [test_command] writes for the same arguments; it returns 0.  Unlike
    [test_command] it reads [argv[0]] whatever [argc] is, so on an empty
    array it reads past the end even with [argc] zero. *)
Theorem echo_command_extends_test_command (argc : Z) (argv : list string) :
  0 <= argc < 2 ^ 31 ->
  echo_command argc argv =
  match argv, test_command argc argv with
  | status :: _, Some (code, lines) =>
      Some (code,
            fprintf_stderr ("Got a status for " ++ status ++ newline)
            :: fprintf_stderr ("Number of args is " ++ decimal argc ++ newline)
            :: lines)
  | _, _ => None
  end.
Proof.
  intros Hargc. unfold echo_command, test_command.
  destruct argv as [ | status rest].
  - cbn [nth_error].
    destruct (option_map (fun out => (0, out)) (print_args argc [] 0 []))
      as [[code lines] | ]; reflexivity.
  - cbn [nth_error].
    pose proof (print_args_from (Z.to_nat argc) [] (status :: rest)) as H.
    cbn [List.length app] in H. rewrite Z2Nat.id in H by lia.
    rewrite Z.add_0_l in H. change (Z.of_nat 0) with 0 in H. rewrite !H.
    destruct (Nat.leb_spec (Z.to_nat argc) (S (List.length rest))); reflexivity.
Qed.

Lemma echo_command_extends_test_command_witness :
  echo_command 0 [] = None /\
  test_command 0 [] = Some (0, []) /\
  echo_command 2 ["slice"; "0"]%string =
    Some (0, [ fprintf_stderr ("Got a status for slice" ++ newline);
               fprintf_stderr ("Number of args is 2" ++ newline);
               fprintf_stderr ("ARG #0: slice" ++ newline);
               fprintf_stderr ("ARG #1: 0" ++ newline) ]).
Proof.
  split; [ | split].
  - rewrite (echo_command_extends_test_command 0 []) by lia. reflexivity.
  - reflexivity.
  - rewrite (echo_command_extends_test_command 2 ["slice"; "0"]%string) by lia.
    reflexivity.
Defined.

(** Decides [nul_free] of the bytes of a string constant. *)
Ltac nul_free_constant :=
  unfold nul_free; cbn; repeat (constructor; [discriminate | ]); constructor.

Lemma c_string_terminated (content rest : list byte) :
  nul_free content -> c_string (content ++ x00 :: rest) = Some content.
Proof.
  induction 1 as [ | b content Hb Hcontent IH]; [reflexivity | ].
  cbn [app c_string].
  destruct (Byte.eqb b x00) eqn:E; [apply Byte.byte_dec_bl in E; contradiction | ].
  rewrite IH. reflexivity.
Qed.

Lemma c_string_unterminated (content : list byte) :
  nul_free content -> c_string content = None.
Proof.
  induction 1 as [ | b content Hb Hcontent IH]; [reflexivity | ].
  cbn [c_string].
  destruct (Byte.eqb b x00) eqn:E; [apply Byte.byte_dec_bl in E; contradiction | ].
  rewrite IH. reflexivity.
Qed.

(** X17.  [data_rx] shows the byte data as [%s] does: up to its first zero
    byte.  Bytes after that zero are never shown, whatever the length of the
    packet; and when the data holds no zero byte at all the conversion does
    not stop at the end of the data, so that what is written is not
    determined by the packet. *)
Theorem data_rx_stops_at_first_zero (size : Z) (content rest : list byte) :
  0 <= size < 2 ^ 31 -> nul_free content ->
  data_rx size (content ++ x00 :: rest) =
    Some [ fprintf_stderr ("Got packet..." ++ newline);
           fprintf_stderr ("  Length: " ++ decimal size ++ newline);
           fprintf_stderr ("  Content: " ++ string_of_list_byte content ++ newline) ] /\
  data_rx size content = None.
Proof.
  intros _ Hc. unfold data_rx.
  rewrite c_string_terminated, c_string_unterminated by assumption.
  split; reflexivity.
Qed.

Lemma data_rx_stops_at_first_zero_witness :
  data_rx 6 (list_byte_of_string "abc" ++ x00 :: list_byte_of_string "de") =
    Some [ fprintf_stderr ("Got packet..." ++ newline);
           fprintf_stderr ("  Length: " ++ decimal 6 ++ newline);
           fprintf_stderr ("  Content: "
                           ++ string_of_list_byte (list_byte_of_string "abc")
                           ++ newline) ] /\
  data_rx 6 (list_byte_of_string "abc") = None.
Proof.
  apply (data_rx_stops_at_first_zero 6 (list_byte_of_string "abc")
           (list_byte_of_string "de")).
  - lia.
  - nul_free_constant.
Defined.

Lemma nul_free_append (a b : string) :
  nul_free (list_byte_of_string a) -> nul_free (list_byte_of_string b) ->
  nul_free (list_byte_of_string (a ++ b)).
Proof.
  intros Ha Hb. rewrite list_byte_of_string_append.
  apply Forall_app. split; assumption.
Qed.

Lemma nul_free_digits (d : Decimal.uint) :
  nul_free (list_byte_of_string (NilEmpty.string_of_uint d)).
Proof.
  unfold nul_free.
  induction d; cbn; try (constructor; [discriminate | assumption]).
  constructor.
Qed.

Lemma nul_free_uint (d : Decimal.uint) :
  nul_free (list_byte_of_string (NilZero.string_of_uint d)).
Proof.
  destruct d; try apply nul_free_digits. nul_free_constant.
Qed.

Lemma nul_free_decimal (z : Z) : nul_free (list_byte_of_string (decimal z)).
Proof.
  unfold decimal. destruct (Z.to_int z) as [d | d]; cbn [NilZero.string_of_int].
  - apply nul_free_uint.
  - change (String "-" (NilZero.string_of_uint d))
      with ("-" ++ NilZero.string_of_uint d)%string.
    apply nul_free_append; [nul_free_constant | apply nul_free_uint].
Qed.

(** X18.  A heartbeat read back.  Given the bytes [packet_rx] sends for any
    counter value, [data_rx] writes the whole text of the heartbeat,
    "Callback Counter: " and the number, and nothing after it: the zero byte
    that [packet_rx] sends along is what ends the conversion. *)
Theorem data_rx_reads_a_heartbeat (counter : Z) :
  data_rx (Z.of_nat (String.length (callback_counter_text counter)) + 1)
          (heartbeat_message counter) =
  Some [ fprintf_stderr ("Got packet..." ++ newline);
         fprintf_stderr
           ("  Length: "
            ++ decimal (Z.of_nat (String.length (callback_counter_text counter)) + 1)
            ++ newline);
         fprintf_stderr ("  Content: " ++ callback_counter_text counter ++ newline) ].
Proof.
  unfold data_rx, heartbeat_message.
  rewrite c_string_terminated.
  - rewrite string_of_list_byte_of_string. reflexivity.
  - unfold callback_counter_text.
    apply nul_free_append; [nul_free_constant | ].
    apply nul_free_append; [apply nul_free_decimal | ].
    nul_free_constant.
Qed.

(** ** Commands to the radio *)

Lemma dispatch_api_commands (ctx ctx' : junk_context) (cb : callback)
      (evs : list event) :
  dispatch ctx cb = Ok (ctx', evs) ->
  api_commands evs = repeat "filt 0 100 3000"%string (activations [cb]).
Proof.
  intros H. destruct cb as [len | len | st]; cbn [dispatch] in H.
  - destruct (tx ctx) eqn:Htx.
    + rewrite packet_rx_while_transmitting in H by assumption.
      inversion H; reflexivity.
    + destruct (fill_samples len 0 (repeat F32.zero (Z.to_nat len), rx_phase ctx))
        as [st | f] eqn:E.
      * rewrite (packet_rx_receiving _ _ _ Htx E) in H. inversion H; subst.
        cbn [app api_commands].
        destruct (heartbeat_is_byte_data (to_uint64 (byte_data_counter ctx + 1)))
          as (_ & _ & _ & ->).
        reflexivity.
      * rewrite (packet_rx_undefined _ _ _ Htx E) in H. discriminate.
  - destruct (tx ctx) eqn:Htx.
    + destruct (fill_samples len 0 (repeat F32.zero (Z.to_nat len), tx_phase ctx))
        as [st | f] eqn:E.
      * rewrite (packet_tx_transmitting _ _ _ Htx E) in H. inversion H; reflexivity.
      * rewrite (packet_tx_undefined _ _ _ Htx E) in H. discriminate.
    + rewrite packet_tx_while_receiving in H by assumption.
      inversion H; reflexivity.
  - destruct st; inversion H; reflexivity.
Qed.

Lemma activations_cons (cb : callback) (rest : list callback) :
  activations (cb :: rest) = (activations [cb] + activations rest)%nat.
Proof. destruct cb as [ | | [ | | | | ]]; reflexivity. Qed.

(** X19.  The only command the waveform ever sends to the radio is the
    filter setting "filt 0 100 3000", once for each [ACTIVE] state change:
    over any sequence of callbacks that runs to its end, the commands sent
    are that one, as many times as the waveform was activated.  No packet
    and no other state sends a command. *)
Theorem filter_is_set_on_activation (cbs : list callback) :
  forall ctx ctx' evs,
    run cbs ctx = Ok (ctx', evs) ->
    api_commands evs = repeat "filt 0 100 3000"%string (activations cbs).
Proof.
  induction cbs as [ | cb rest IH]; intros ctx ctx' evs H; cbn [run] in H.
  - inversion H; reflexivity.
  - destruct (dispatch ctx cb) as [[ctx1 evs1] | ] eqn:E1; cbn [bind fst snd] in H;
      [ | discriminate].
    destruct (run rest ctx1) as [[ctx2 evs2] | ] eqn:E2; cbn [bind fst snd] in H;
      [ | discriminate].
    inversion H; subst.
    rewrite api_commands_app, activations_cons, repeat_app.
    rewrite (dispatch_api_commands _ _ _ _ E1), (IH _ _ _ E2). reflexivity.
Qed.

Lemma filter_is_set_on_activation_witness :
  api_commands
    [ fprintf_stderr ("wf is active" ++ newline);
      waveform_send_api_command_cb "filt 0 100 3000";
      waveform_send_data_packet (tone 0 1) 2 SPEAKER_DATA;
      waveform_meter_set_float_value "junk-snr" (F32.of_int 0);
      waveform_meters_send;
      fprintf_stderr ("wf is inactive" ++ newline);
      fprintf_stderr ("wf is active" ++ newline);
      waveform_send_api_command_cb "filt 0 100 3000" ] =
  repeat "filt 0 100 3000"%string
    (activations [state_change ACTIVE; rx_data 2; state_change INACTIVE;
                  state_change ACTIVE]).
Proof.
  apply (filter_is_set_on_activation
           [state_change ACTIVE; rx_data 2; state_change INACTIVE;
            state_change ACTIVE]
           initial_context (mk_context 1 0 false 1 1)).
  vm_compute. reflexivity.
Defined.
